(** * Master Actions retrieval core: a shallow embedding and its properties

    Embedding of [src/hr_bot/tools/master_actions_tool.py]
    (classes [MasterActionsRetriever] and [MasterActionsTool]).

    Modelling conventions.
    - A Python [str] is a [string] of bytes (its UTF-8 encoding, so that
      [.encode()] is the identity); the case and whitespace functions
      below are the ASCII fragments of [str.lower] and [str.strip].
    - A Python [float] is an exact rational [Q]; rounding of IEEE doubles
      is outside the model.
    - An [int] is a [Z].
    - A call that may raise returns [exc A]: [Ok a] or [Raise msg].
    - The disk (persisted index files and the diskcache store) and the
      clock are explicit arguments and results.
    - External libraries (LangChain retrievers, FAISS, the text splitter,
      the .docx loader) are variables of the section [Retrieval]. *)

From Stdlib Require Import ZArith QArith Qminmax Qabs Lqa Lia Bool List Ascii String.
From Stdlib Require Import DecimalString DecimalZ Permutation Sorted.
From stdpp Require Import base option list sorting strings gmap.

Import ListNotations.
Local Open Scope Z_scope.
Local Open Scope string_scope.

(** ** Exceptions *)

Inductive exc (A : Type) : Type :=
| Ok (a : A)
| Raise (msg : string).
Arguments Ok {A} a.
Arguments Raise {A} msg.

Definition exc_bind {A B} (m : exc A) (k : A -> exc B) : exc B :=
  match m with
  | Ok a => k a
  | Raise e => Raise e
  end.

Notation "'do' x <- m ; k" := (exc_bind m (fun x => k))
  (at level 10, x name, m at level 100, k at level 200).

(** ** Strings *)

Module Str.

Definition ascii_in (lo hi : N) (c : ascii) : bool :=
  (lo <=? N_of_ascii c)%N && (N_of_ascii c <=? hi)%N.

Definition is_upper : ascii -> bool := ascii_in 65 90.
Definition is_lower : ascii -> bool := ascii_in 97 122.
Definition is_digit : ascii -> bool := ascii_in 48 57.

(** [\w] on ASCII text: letters, digits and the underscore. *)
Definition is_word (c : ascii) : bool :=
  is_upper c || is_lower c || is_digit c || (N_of_ascii c =? 95)%N.

(** The characters [str.strip()] removes: TAB, LF, VT, FF, CR, the
    separators 0x1c-0x1f and the space. *)
Definition is_space (c : ascii) : bool :=
  ascii_in 9 13 c || ascii_in 28 32 c.

Definition lower_ascii (c : ascii) : ascii :=
  if is_upper c then ascii_of_N (N_of_ascii c + 32) else c.

(** [s.lower()] *)
Fixpoint lower (s : string) : string :=
  match s with
  | EmptyString => EmptyString
  | String c s' => String (lower_ascii c) (lower s')
  end.

Fixpoint lstrip (s : string) : string :=
  match s with
  | EmptyString => EmptyString
  | String c s' => if is_space c then lstrip s' else s
  end.

Fixpoint rstrip (s : string) : string :=
  match s with
  | EmptyString => EmptyString
  | String c s' =>
      match rstrip s' with
      | EmptyString => if is_space c then EmptyString else String c EmptyString
      | r => String c r
      end
  end.

(** [s.strip()] *)
Definition strip (s : string) : string := rstrip (lstrip s).

(** [needle in hay] *)
Fixpoint contains (needle hay : string) : bool :=
  String.prefix needle hay ||
  match hay with
  | EmptyString => false
  | String _ hay' => contains needle hay'
  end.

(** [sep.join(parts)] *)
Fixpoint join (sep : string) (parts : list string) : string :=
  match parts with
  | [] => ""
  | [p] => p
  | p :: rest => p ++ sep ++ join sep rest
  end.

(** Maximal runs of characters satisfying [p]: the run that starts at
    the head of [s], if any, and the runs after it. *)
Fixpoint runs (p : ascii -> bool) (s : string) : option string * list string :=
  match s with
  | EmptyString => (None, [])
  | String c s' =>
      let '(cur, later) := runs p s' in
      if p c then (Some (String c (default "" cur)), later)
      else (None, match cur with Some w => w :: later | None => later end)
  end.

Definition all_runs (p : ascii -> bool) (s : string) : list string :=
  let '(cur, later) := runs p s in
  match cur with Some w => w :: later | None => later end.

(** [s.split()] *)
Definition split (s : string) : list string := all_runs (fun c => negb (is_space c)) s.

Fixpoint drop (n : nat) (s : string) : string :=
  match n, s with
  | S n', String _ s' => drop n' s'
  | _, _ => s
  end.

(** [Path(p).name] *)
Fixpoint basename (p : string) : string :=
  match p with
  | EmptyString => EmptyString
  | String c p' =>
      if contains "/" p' then basename p'
      else if Ascii.eqb c "/" then p' else p
  end.

(** [str(n)] for an [int]. *)
Definition of_Z (n : Z) : string := NilZero.string_of_int (Z.to_int n).

(** [any(m in s for m in markers)] *)
Definition contains_any (markers : list string) (s : string) : bool :=
  existsb (fun m => contains m s) markers.

End Str.

(** ** MD5 (RFC 1321), the digest behind [hashlib.md5] *)

Module MD5.

Local Open Scope Z_scope.

Definition mask32 (x : Z) : Z := Z.land x 0xffffffff.

Definition rotl32 (x : Z) (c : Z) : Z :=
  mask32 (Z.lor (Z.shiftl x c) (Z.shiftr x (32 - c))).

Definition not32 (x : Z) : Z := Z.lxor x 0xffffffff.

Definition shifts : list Z :=
  [7; 12; 17; 22; 7; 12; 17; 22; 7; 12; 17; 22; 7; 12; 17; 22;
   5;  9; 14; 20; 5;  9; 14; 20; 5;  9; 14; 20; 5;  9; 14; 20;
   4; 11; 16; 23; 4; 11; 16; 23; 4; 11; 16; 23; 4; 11; 16; 23;
   6; 10; 15; 21; 6; 10; 15; 21; 6; 10; 15; 21; 6; 10; 15; 21].

Definition sines : list Z :=
  [0xd76aa478; 0xe8c7b756; 0x242070db; 0xc1bdceee;
   0xf57c0faf; 0x4787c62a; 0xa8304613; 0xfd469501;
   0x698098d8; 0x8b44f7af; 0xffff5bb1; 0x895cd7be;
   0x6b901122; 0xfd987193; 0xa679438e; 0x49b40821;
   0xf61e2562; 0xc040b340; 0x265e5a51; 0xe9b6c7aa;
   0xd62f105d; 0x02441453; 0xd8a1e681; 0xe7d3fbc8;
   0x21e1cde6; 0xc33707d6; 0xf4d50d87; 0x455a14ed;
   0xa9e3e905; 0xfcefa3f8; 0x676f02d9; 0x8d2a4c8a;
   0xfffa3942; 0x8771f681; 0x6d9d6122; 0xfde5380c;
   0xa4beea44; 0x4bdecfa9; 0xf6bb4b60; 0xbebfbc70;
   0x289b7ec6; 0xeaa127fa; 0xd4ef3085; 0x04881d05;
   0xd9d4d039; 0xe6db99e5; 0x1fa27cf8; 0xc4ac5665;
   0xf4292244; 0x432aff97; 0xab9423a7; 0xfc93a039;
   0x655b59c3; 0x8f0ccc92; 0xffeff47d; 0x85845dd1;
   0x6fa87e4f; 0xfe2ce6e0; 0xa3014314; 0x4e0811a1;
   0xf7537e82; 0xbd3af235; 0x2ad7d2bb; 0xeb86d391].

Definition bytes_of_string (s : string) : list Z :=
  List.map (fun c => Z.of_N (N_of_ascii c)) (list_ascii_of_string s).

(** [n] as [len] little-endian bytes. *)
Fixpoint le_bytes (len : nat) (n : Z) : list Z :=
  match len with
  | O => []
  | S len' => Z.land n 0xff :: le_bytes len' (Z.shiftr n 8)
  end.

Fixpoint le_word (bs : list Z) : Z :=
  match bs with
  | [] => 0
  | b :: bs' => Z.lor b (Z.shiftl (le_word bs') 8)
  end.

(** Message padding: a 1 bit, zeros up to 56 mod 64, the bit length. *)
Definition pad (msg : list Z) : list Z :=
  let n := Z.of_nat (List.length msg) in
  let zeros := Z.to_nat ((55 - n) mod 64) in
  msg ++ [0x80] ++ List.repeat 0 zeros ++ le_bytes 8 (8 * n).

Fixpoint words (count : nat) (bs : list Z) : list Z :=
  match count with
  | O => []
  | S count' => le_word (firstn 4 bs) :: words count' (skipn 4 bs)
  end.

Definition state : Type := Z * Z * Z * Z.

Definition round (m : list Z) (st : state) (i : Z) : state :=
  let '(a, b, c, d) := st in
  let '(f, g) :=
    if i <? 16 then (Z.lor (Z.land b c) (Z.land (not32 b) d), i)
    else if i <? 32 then (Z.lor (Z.land d b) (Z.land (not32 d) c), (5 * i + 1) mod 16)
    else if i <? 48 then (Z.lxor (Z.lxor b c) d, (3 * i + 5) mod 16)
    else (Z.lxor c (Z.lor b (not32 d)), (7 * i) mod 16) in
  let f' := mask32 (f + a + nth (Z.to_nat i) sines 0 + nth (Z.to_nat g) m 0) in
  (d, mask32 (b + rotl32 f' (nth (Z.to_nat i) shifts 0)), b, c).

Definition block (st : state) (bs : list Z) : state :=
  let m := words 16 bs in
  let '(a, b, c, d) := st in
  let '(a', b', c', d') :=
    List.fold_left (round m) (List.map Z.of_nat (List.seq 0 64)) st in
  (mask32 (a + a'), mask32 (b + b'), mask32 (c + c'), mask32 (d + d')).

Fixpoint blocks (count : nat) (st : state) (bs : list Z) : state :=
  match count with
  | O => st
  | S count' => blocks count' (block st (firstn 64 bs)) (skipn 64 bs)
  end.

Definition hex_digit (n : Z) : ascii :=
  ascii_of_N (Z.to_N (if n <? 10 then 48 + n else 87 + n)).

Fixpoint hex (bs : list Z) : string :=
  match bs with
  | [] => ""
  | b :: bs' =>
      String (hex_digit (Z.shiftr b 4)) (String (hex_digit (Z.land b 15)) (hex bs'))
  end.

Definition digest (msg : list Z) : list Z :=
  let p := pad msg in
  let '(a, b, c, d) :=
    blocks (List.length p / 64)%nat
           (0x67452301, 0xefcdab89, 0x98badcfe, 0x10325476) p in
  le_bytes 4 a ++ le_bytes 4 b ++ le_bytes 4 c ++ le_bytes 4 d.

(** [hashlib.md5(s.encode()).hexdigest()] *)
Definition hexdigest (s : string) : string := hex (digest (bytes_of_string s)).

End MD5.

(** ** Python list and number helpers *)

(** [l[:k]] *)
Definition slice_to {A} (k : Z) (l : list A) : list A :=
  if (0 <=? k)%Z then firstn (Z.to_nat k) l
  else firstn (Z.to_nat (Z.of_nat (List.length l) + k)) l.

Definition Qltb (x y : Q) : bool := negb (Qle_bool y x).

(** [max(xs)]; raises [ValueError] on an empty sequence. *)
Definition py_max (xs : list Q) : exc Q :=
  match xs with
  | [] => Raise "max() arg is an empty sequence"
  | x :: xs' => Ok (List.fold_left (fun m y => if Qltb m y then y else m) xs' x)
  end.

(** [f"{q:.3f}"]: the decimal expansion rounded to thousandths, ties to even. *)
Definition round_half_even (q : Q) : Z :=
  let a := Qnum q in
  let b := Zpos (Qden q) in
  let f := (a / b)%Z in
  let r := (a mod b)%Z in
  if (b <? 2 * r)%Z then (f + 1)%Z
  else if (2 * r <? b)%Z then f
  else if Z.even f then f else (f + 1)%Z.

Definition pad3 (n : Z) : string :=
  (if (n <? 10)%Z then "00" else if (n <? 100)%Z then "0" else "") ++ Str.of_Z n.

Definition format_3f (q : Q) : string :=
  let neg := Qltb q 0 in
  let n := round_half_even (Qabs q * 1000) in
  (if neg then "-" else "") ++ Str.of_Z (n / 1000) ++ "." ++ pad3 (n mod 1000).

(** ** Data model *)

(** A LangChain [Document]; [metadata] holds the keys this module reads
    and writes. *)
Record Document := mkDocument {
  page_content : string;
  meta_source : option string;
  meta_file_path : option string;
  meta_type : option string;
  meta_chunk_id : option Z
}.

Record ActionSearchResult := mkResult {
  content : string;
  source : string;
  score : Q;
  chunk_id : Z
}.

(** The external index objects, reduced to what they are built from. *)
Record VectorStore := mkVectorStore { vs_docs : list Document }.
Record BM25Okapi := mkBM25 { bm25_corpus : list (list string) }.
Record VectorStoreRetriever := mkVSR { vsr_store : VectorStore; vsr_k : Z }.
Record BM25Retriever := mkBMR { bmr_docs : list Document; bmr_k : Z }.

Inductive BaseRetriever :=
| Sparse (r : BM25Retriever)
| Dense (r : VectorStoreRetriever).

Record EnsembleRetriever := mkEnsemble {
  retrievers : list BaseRetriever;
  weights : list Q
}.

(** The attributes of a [MasterActionsRetriever] instance. *)
Record Retriever := mkRetriever {
  vector_store : option VectorStore;
  bm25 : option BM25Okapi;
  bm25_retriever : option BM25Retriever;
  faiss_retriever : option VectorStoreRetriever;
  ensemble_retriever : option EnsembleRetriever;
  documents : list Document;
  cache_dir : option string;
  document_paths : option (list string);
  s3_version_hash : option string;
  index_hash : option string;
  chunk_size : Z;
  chunk_overlap : Z;
  top_k : Z;
  bm25_weight : Q;
  vector_weight : Q
}.

(** [MasterActionsRetriever.__init__] *)
Definition __init__ (cache_dir : option string) (document_paths : option (list string))
    (s3_version_hash : option string) : Retriever :=
  {| vector_store := None;
     bm25 := None;
     bm25_retriever := None;
     faiss_retriever := None;
     ensemble_retriever := None;
     documents := [];
     cache_dir := cache_dir;
     document_paths := document_paths;
     s3_version_hash := s3_version_hash;
     index_hash := None;
     chunk_size := 600;
     chunk_overlap := 150;
     top_k := 5;
     bm25_weight := 6 # 10;
     vector_weight := 4 # 10 |}.

(** The dictionary pickled into [master_bm25_index.pkl]. *)
Record PickleBundle := mkBundle {
  pk_bm25 : BM25Okapi;
  pk_documents : list Document;
  pk_index_hash : option string
}.

(** A file or directory on disk: its [st_mtime] and what reading it
    gives ([None] when the reader raises). *)
Record Stored (A : Type) := mkStored {
  st_mtime : Q;
  st_content : option A
}.
Arguments mkStored {A} _ _.
Arguments st_mtime {A} _.
Arguments st_content {A} _.

(** The two paths under [index_dir]; [None] when the path does not exist. *)
Record IndexDisk := mkDisk {
  vector_path : option (Stored VectorStore);
  bm25_path : option (Stored PickleBundle)
}.

(** The file system as the document finder and the hasher see it. *)
Record FileSystem := mkFS {
  fs_exists : string -> bool;
  (** [base.glob("*.docx")], as full paths *)
  fs_glob_docx : string -> list string;
  (** [str(Path(p).stat().st_mtime)], or [None] when [stat] raises *)
  fs_mtime : string -> option string
}.

(** ** The diskcache store behind [_search_cache] *)

Record CacheEntry := mkEntry {
  ce_value : list ActionSearchResult;
  ce_expire_time : Q
}.

(** [cache_fault] is the failure of the underlying store, if any (a
    locked or unreadable database): every access then raises with that
    message. *)
Record Cache := mkCache {
  cache_entries : gmap string CacheEntry;
  cache_fault : option string
}.

Definition empty_cache : Cache := {| cache_entries := ∅; cache_fault := None |}.

(** [cache.get(key)]: the stored value while its expiry time lies in the
    future. *)
Definition cache_get (c : Cache) (now : Q) (key : string)
    : exc (option (list ActionSearchResult)) :=
  match cache_fault c with
  | Some msg => Raise msg
  | None =>
      Ok (match cache_entries c !! key with
          | Some e => if Qltb now (ce_expire_time e) then Some (ce_value e) else None
          | None => None
          end)
  end.

(** [cache.set(key, value, expire=expire)] *)
Definition cache_set (c : Cache) (now : Q) (key : string)
    (value : list ActionSearchResult) (expire : Q) : exc Cache :=
  match cache_fault c with
  | Some msg => Raise msg
  | None =>
      Ok {| cache_entries :=
              <[key := {| ce_value := value; ce_expire_time := now + expire |}]>
                (cache_entries c);
            cache_fault := None |}
  end.

(** ** Version fingerprint *)

(** A [hashlib.md5()] object: the bytes fed to it so far. *)
Module Hasher.
Definition t : Type := string.
Definition new : t := "".
Definition update (h : t) (data : string) : t := h ++ data.
Definition hexdigest (h : t) : string := MD5.hexdigest h.
End Hasher.

(** [sorted(paths)] *)
Definition sorted (paths : list string) : list string := merge_sort String.le paths.

Definition nonempty (s : option string) : option string :=
  match s with
  | Some "" => None
  | other => other
  end.

(** The loop over [sorted(self.document_paths)]. *)
Definition hash_paths (fs : FileSystem) (paths : list string) (h : Hasher.t) : Hasher.t :=
  List.fold_left
    (fun h doc_path =>
       let h := Hasher.update h doc_path in
       match fs_mtime fs doc_path with
       | Some mtime => Hasher.update h mtime
       | None => h
       end)
    (sorted paths) h.

(** The hasher of [_compute_version_hash] just before [hexdigest()]. *)
Definition version_hasher (fs : FileSystem) (r : Retriever) : Hasher.t :=
  let h := Hasher.new in
  let h :=
    match nonempty (s3_version_hash r) with
    | Some tag => Hasher.update h tag
    | None =>
        match document_paths r with
        | Some (p :: ps) => hash_paths fs (p :: ps) h
        | _ => h
        end
    end in
  let h := Hasher.update h
             ("chunk:" ++ Str.of_Z (chunk_size r) ++ "|overlap:" ++ Str.of_Z (chunk_overlap r)) in
  Hasher.update h "master_actions_v2".

Definition _compute_version_hash (fs : FileSystem) (r : Retriever) : string :=
  Hasher.hexdigest (version_hasher fs r).

(** ** Query tokens *)

(** [re.findall(r'\b\w+\b', s)]: the maximal runs of word characters. *)
Definition findall_words (s : string) : list string := Str.all_runs Str.is_word s.

Definition stop_words : gset string :=
  list_to_set ["a"; "an"; "the"; "is"; "are"; "to"; "for"; "of"; "in"; "on";
               "how"; "what"; "i"; "my"; "can"].

(** [set(re.findall(r'\b\w+\b', query.lower())) - stop_words] *)
Definition query_tokens (query : string) : gset string :=
  list_to_set (findall_words (Str.lower query)) ∖ stop_words.

Definition action_markers : list string :=
  ["link:"; "steps:"; "step 1"; "step 2"; "click"; "navigate"; "select"; "action name:"].

Definition action_expansions : list (string * list string) :=
  [("apply", ["request"; "submit"; "file"]);
   ("download", ["get"; "access"; "view"; "fetch"]);
   ("leave", ["vacation"; "time off"; "absence"; "pto"]);
   ("payslip", ["salary slip"; "pay stub"; "salary statement"]);
   ("profile", ["personal details"; "employee info"; "my details"]);
   ("training", ["learning"; "course"; "certification"; "skill"]);
   ("expense", ["reimbursement"; "claim"; "travel claim"]);
   ("attendance", ["punch"; "check in"; "clock"]);
   ("holiday", ["calendar"; "public holiday"; "company holiday"]);
   ("form-16", ["tax form"; "income tax"; "tds"]);
   ("balance", ["remaining"; "available"; "quota"])].

(** ** Scoring *)

(** The number of query tokens found in the chunk text. *)
Definition keyword_hits (tokens : gset string) (content_lower : string) : nat :=
  List.length (List.filter (fun token => Str.contains token content_lower) (elements tokens)).

(** The body of the scoring loop of [search] for one [(rank, doc)]. *)
Definition score_doc (tokens : gset string) (rank : nat) (doc : Document)
    : ActionSearchResult :=
  let base_score := (1 / inject_Z (Z.of_nat rank + 1))%Q in
  let content_lower := Str.lower (page_content doc) in
  let keyword_boost := ((1 # 10) * inject_Z (Z.of_nat (keyword_hits tokens content_lower)))%Q in
  let action_boost :=
    if Str.contains_any action_markers content_lower then (2 # 10)%Q else 0%Q in
  {| content := page_content doc;
     source := default "Master Actions Guide" (meta_source doc);
     score := (base_score + keyword_boost + action_boost)%Q;
     chunk_id := default (-1)%Z (meta_chunk_id doc) |}.

(** [for rank, doc in enumerate(docs): results.append(...)] *)
Definition score_docs (query : string) (docs : list Document) : list ActionSearchResult :=
  imap (score_doc (query_tokens query)) docs.

(** [results.sort(key=lambda r: r.score, reverse=True)]: a stable sort,
    larger scores first, equal scores in their original order. *)
Fixpoint insert_desc (x : ActionSearchResult) (l : list ActionSearchResult)
    : list ActionSearchResult :=
  match l with
  | [] => [x]
  | y :: l' => if Qltb (score x) (score y) then y :: insert_desc x l' else x :: l
  end.

Definition sort_desc (l : list ActionSearchResult) : list ActionSearchResult :=
  List.fold_right insert_desc [] l.

(** ** Search and the tool entry point *)

Record Tool := mkTool {
  retriever : Retriever;
  _last_sources : list string
}.

Definition NO_ACTION_FOUND : string := "NO_ACTION_FOUND".

(** The separator of the source list, with the bytes of the source file. *)
Definition source_separator : string := " â€¢ ".

Definition newline : string := String (ascii_of_N 10) "".

(** The formatting loop of [_run]; [idx] counts from 1. *)
Fixpoint format_results (idx : Z) (results : list ActionSearchResult) : string :=
  match results with
  | [] => ""
  | result :: rest =>
      "**[" ++ Str.of_Z idx ++ "]** (Score: " ++ format_3f (score result) ++ ")" ++ newline
      ++ content result ++ newline ++ newline
      ++ format_results (idx + 1) rest
  end.

Section Retrieval.

(** The iteration order of a Python [set] of strings built by adding the
    given elements in order. *)
Variable set_iter : list string -> list string.

(** [EnsembleRetriever.invoke]. *)
Variable ensemble_invoke : EnsembleRetriever -> string -> exc (list Document).

(** [MasterActionsRetriever.CONFIDENCE_THRESHOLD], read from the
    environment when the class is created. *)
Variable CONFIDENCE_THRESHOLD : Q.

Definition _expand_query (query : string) : string :=
  let q := Str.lower (Str.strip query) in
  let expansions :=
    List.fold_left
      (fun expansions '(keyword, synonyms) =>
         if Str.contains keyword q then (expansions ++ synonyms)%list else expansions)
      action_expansions ([] : list string) in
  match expansions with
  | [] => query
  | _ => query ++ " " ++ Str.join " " (set_iter expansions)
  end.

(** [top_k or self.top_k] *)
Definition top_k_or (arg : option Z) (dflt : Z) : Z :=
  match arg with
  | Some k => if (k =? 0)%Z then dflt else k
  | None => dflt
  end.

(** [f"master_search:{self.index_hash}:{expanded_query}:{top_k}"] *)
Definition cache_key (r : Retriever) (expanded_query : string) (k : Z) : string :=
  "master_search:" ++ default "None" (index_hash r) ++ ":" ++ expanded_query
  ++ ":" ++ Str.of_Z k.

Definition search (r : Retriever) (cache : Cache) (now : Q) (query : string)
    (top_k_arg : option Z) : exc (list ActionSearchResult * Cache) :=
  match vector_store r, ensemble_retriever r, documents r with
  | Some _, Some ensemble, _ :: _ =>
      let k := top_k_or top_k_arg (top_k r) in
      let expanded_query := _expand_query query in
      let key := cache_key r expanded_query k in
      do cached <- cache_get cache now key;
      match cached with
      | Some (c :: cs) => Ok (c :: cs, cache)
      | _ =>
          match ensemble_invoke ensemble expanded_query with
          | Raise _ => Ok ([], cache)
          | Ok [] => Ok ([], cache)
          | Ok docs =>
              let results := slice_to k (sort_desc (score_docs query docs)) in
              do cache' <- cache_set cache now key results 3600;
              Ok (results, cache')
          end
      end
  | _, _, _ => Ok ([], cache)
  end.

(** The output string built by [_run] for a populated result list. *)
Definition format_output (results : list ActionSearchResult) : string :=
  "Found " ++ Str.of_Z (Z.of_nat (List.length results)) ++ " relevant action(s):"
  ++ newline ++ newline
  ++ format_results 1 results
  ++ "Sources: " ++ Str.join source_separator (set_iter (List.map source results))
  ++ newline.

(** The [try] block of [_run], after [_last_sources] has been reset:
    the output, the new [_last_sources] and the cache. *)
Definition run_body (t : Tool) (cache : Cache) (now : Q) (query : string)
    : exc (string * list string * Cache) :=
  match documents (retriever t) with
  | [] => Ok (NO_ACTION_FOUND, [], cache)
  | _ :: _ =>
      do found <- search (retriever t) cache now query (Some 5%Z);
      let '(results, cache') := found in
      match results with
      | [] => Ok (NO_ACTION_FOUND, [], cache')
      | _ :: _ =>
          do best_score <- py_max (List.map score results);
          if Qltb best_score CONFIDENCE_THRESHOLD then Ok (NO_ACTION_FOUND, [], cache')
          else Ok (format_output results, set_iter (List.map source results), cache')
      end
  end.

(** [MasterActionsTool._run]: the handler turns any exception of the
    body into an error string. A raise leaves the cache as it was. *)
Definition _run (t : Tool) (cache : Cache) (now : Q) (query : string)
    : string * Tool * Cache :=
  match run_body t cache now query with
  | Ok (output, sources, cache') =>
      (output, {| retriever := retriever t; _last_sources := sources |}, cache')
  | Raise e =>
      ("Error searching actions: " ++ e,
       {| retriever := retriever t; _last_sources := [] |}, cache)
  end.

(** [MasterActionsTool.last_sources] *)
Definition last_sources (t : Tool) : list string := _last_sources t.

(** [MasterActionsTool.clear_last_sources] *)
Definition clear_last_sources (t : Tool) : Tool :=
  {| retriever := retriever t; _last_sources := [] |}.

(** ** Loading the master document *)

(** [Docx2txtLoader(path).load()]. *)
Variable docx_load : string -> exc (list Document).

(** [RecursiveCharacterTextSplitter(chunk_size, chunk_overlap,
    separators, len).split_documents]. *)
Variable split_documents : Z -> Z -> list Document -> list Document.

(** The directory four levels above this module's file. *)
Variable project_root : string.

Definition master_keywords : list string := ["knowledge"; "action"; "master"; "guide"].

Definition is_master_name (path : string) : bool :=
  Str.contains_any master_keywords (Str.lower (Str.basename path)).

(** [base / name] *)
Definition path_join (base name : string) : string := base ++ "/" ++ name.

Definition exact_name : string := "Knowledge Bot â€“ Action Links and Steps.docx".

(** The search of one directory of [search_paths]. *)
Definition find_in_dir (fs : FileSystem) (base_path : string) : option string :=
  let exact_path := path_join base_path exact_name in
  if fs_exists fs exact_path then Some exact_path
  else List.find is_master_name (fs_glob_docx fs base_path).

Definition _find_master_document (fs : FileSystem) (r : Retriever) : option string :=
  let search_paths :=
    match nonempty (cache_dir r) with
    | Some cache_path => if fs_exists fs cache_path then [cache_path] else []
    | None => []
    end in
  match List.find (fun p => fs_exists fs p && is_master_name p)
                  (default [] (document_paths r)) with
  | Some p => Some p
  | None =>
      match omap (find_in_dir fs) search_paths with
      | found :: _ => Some found
      | [] =>
          let local_master := path_join (path_join project_root "data") "Master-Document" in
          if fs_exists fs local_master
          then List.find is_master_name (fs_glob_docx fs local_master)
          else None
      end
  end.

(** [re.sub(pattern, rep, text)] for a pattern whose match at the head
    of a string, when there is one, has the length [match_len] gives;
    [skip] counts the characters of the last match still to pass. *)
Fixpoint re_sub (match_len : string -> option nat) (rep : string) (skip : nat)
    (text : string) : string :=
  match text with
  | EmptyString => EmptyString
  | String c text' =>
      match skip with
      | S skip' => re_sub match_len rep skip' text'
      | O =>
          match match_len text with
          | Some (S n) => rep ++ re_sub match_len rep n text'
          | _ => String c (re_sub match_len rep O text')
          end
      end
  end.

(** A literal pattern under [re.IGNORECASE]. *)
Definition match_literal (pattern : string) (text : string) : option nat :=
  if String.prefix (Str.lower pattern) (Str.lower text)
  then Some (String.length pattern) else None.

Fixpoint leading_spaces (s : string) : nat :=
  match s with
  | String c s' => if Str.is_space c then S (leading_spaces s') else O
  | EmptyString => O
  end.

(** The position of the first [c] in [s]. *)
Fixpoint index_of (c : ascii) (s : string) : option nat :=
  match s with
  | EmptyString => None
  | String c' s' => if Ascii.eqb c c' then Some O else option_map S (index_of c s')
  end.

(** [\[\s*insert[^\]]*\]] under [re.IGNORECASE]. *)
Definition match_insert (text : string) : option nat :=
  match text with
  | String "["%char rest =>
      let ws := leading_spaces rest in
      let rest' := Str.drop ws rest in
      if String.prefix "insert" (Str.lower rest') then
        match index_of "]"%char (Str.drop 6 rest') with
        | Some n => Some (1 + ws + 6 + n + 1)%nat
        | None => None
        end
      else None
  | _ => None
  end.

Definition replacements : list (string * string) :=
  [("[insert name and job title]", "HR Representative");
   ("[insert job title]", "HR Representative");
   ("[the Company]", "the company");
   ("[Company Name]", "the company");
   ("[Employee]", "employee");
   ("[INSERT LOGO HERE]", "")].

Definition _sanitize_content (text : string) : string :=
  let text :=
    List.fold_left
      (fun text '(pattern, replacement) =>
         re_sub (match_literal pattern) replacement O text)
      replacements text in
  re_sub match_insert "the appropriate details" O text.

Definition _load_master_document (fs : FileSystem) (r : Retriever) : list Document :=
  match _find_master_document fs r with
  | None => []
  | Some master_path =>
      match docx_load master_path with
      | Raise _ => []
      | Ok docs =>
          List.map
            (fun doc =>
               {| page_content := _sanitize_content (page_content doc);
                  meta_source := Some (Str.basename master_path);
                  meta_file_path := Some master_path;
                  meta_type := Some "master_actions";
                  meta_chunk_id := meta_chunk_id doc |})
            docs
      end
  end.

Definition set_chunk_id (idx : nat) (chunk : Document) : Document :=
  {| page_content := page_content chunk;
     meta_source := meta_source chunk;
     meta_file_path := meta_file_path chunk;
     meta_type := meta_type chunk;
     meta_chunk_id := Some (Z.of_nat idx) |}.

Definition _chunk_documents (r : Retriever) (docs : list Document) : list Document :=
  imap set_chunk_id (split_documents (chunk_size r) (chunk_overlap r) docs).

(** ** The persisted index *)

Definition set_retrievers (r : Retriever) (fr : VectorStoreRetriever)
    (br : BM25Retriever) (er : EnsembleRetriever) : Retriever :=
  {| vector_store := vector_store r;
     bm25 := bm25 r;
     bm25_retriever := Some br;
     faiss_retriever := Some fr;
     ensemble_retriever := Some er;
     documents := documents r;
     cache_dir := cache_dir r;
     document_paths := document_paths r;
     s3_version_hash := s3_version_hash r;
     index_hash := index_hash r;
     chunk_size := chunk_size r;
     chunk_overlap := chunk_overlap r;
     top_k := top_k r;
     bm25_weight := bm25_weight r;
     vector_weight := vector_weight r |}.

Definition set_index (r : Retriever) (vs : option VectorStore) (b : option BM25Okapi)
    (docs : list Document) (h : option string) : Retriever :=
  {| vector_store := vs;
     bm25 := b;
     bm25_retriever := bm25_retriever r;
     faiss_retriever := faiss_retriever r;
     ensemble_retriever := ensemble_retriever r;
     documents := docs;
     cache_dir := cache_dir r;
     document_paths := document_paths r;
     s3_version_hash := s3_version_hash r;
     index_hash := h;
     chunk_size := chunk_size r;
     chunk_overlap := chunk_overlap r;
     top_k := top_k r;
     bm25_weight := bm25_weight r;
     vector_weight := vector_weight r |}.

(** [_build_retrievers]; calling [as_retriever] on a missing vector
    store raises before anything is assigned. *)
Definition _build_retrievers (r : Retriever) : exc Retriever :=
  match documents r with
  | [] => Ok r
  | _ :: _ =>
      let base_k := Z.max (top_k r) 5 in
      match vector_store r with
      | None => Raise "'NoneType' object has no attribute 'as_retriever'"
      | Some vs =>
          let fr := {| vsr_store := vs; vsr_k := base_k * 2 |} in
          let br := {| bmr_docs := documents r; bmr_k := base_k * 2 |} in
          Ok (set_retrievers r fr br
                {| retrievers := [Sparse br; Dense fr];
                   weights := [bm25_weight r; vector_weight r] |})
      end
  end.

(** [_save_index] at time [now]; writes are taken to succeed. *)
Definition _save_index (r : Retriever) (disk : IndexDisk) (now : Q) : IndexDisk :=
  let vp :=
    match vector_store r with
    | Some vs => Some (mkStored now (Some vs))
    | None => vector_path disk
    end in
  let bp :=
    match bm25 r with
    | Some b =>
        Some (mkStored now
                (Some {| pk_bm25 := b;
                         pk_documents := documents r;
                         pk_index_hash := index_hash r |}))
    | None => bm25_path disk
    end in
  {| vector_path := vp; bm25_path := bp |}.

(** [_load_index] at time [now]: whether an index was loaded, and the
    retriever afterwards. Every exception inside is caught and gives
    [False]; a readable bundle has the three keys [_save_index] writes. *)
Definition _load_index (r : Retriever) (disk : IndexDisk) (now : Q)
    (current_hash : string) : bool * Retriever :=
  match vector_path disk, bm25_path disk with
  | Some vfile, Some bfile =>
      let index_age_hours := ((now - st_mtime bfile) / 3600)%Q in
      if Qltb 24 index_age_hours then (false, r)
      else
        match st_content bfile with
        | None => (false, r)
        | Some data =>
            if negb (bool_decide (pk_index_hash data = Some current_hash)) then (false, r)
            else
              match st_content vfile with
              | None => (false, r)
              | Some vs =>
                  let r' := set_index r (Some vs) (Some (pk_bm25 data))
                              (pk_documents data) (pk_index_hash data) in
                  match _build_retrievers r' with
                  | Ok r'' => (true, r'')
                  | Raise _ => (false, r')
                  end
              end
        end
  | _, _ => (false, r)
  end.

(** [build_index] at time [now]. *)
Definition build_index (r : Retriever) (fs : FileSystem) (disk : IndexDisk) (now : Q)
    (force_rebuild : bool) : exc (Retriever * IndexDisk) :=
  let current_hash := _compute_version_hash fs r in
  let '(loaded, r, disk) :=
    if force_rebuild then (false, r, {| vector_path := None; bm25_path := None |})
    else let '(loaded, r') := _load_index r disk now current_hash in (loaded, r', disk) in
  if loaded then Ok (r, disk)
  else
    match _load_master_document fs r with
    | [] => Ok (r, disk)
    | raw_docs =>
        let docs := _chunk_documents r raw_docs in
        let r := set_index r (vector_store r) (bm25 r) docs (index_hash r) in
        match docs with
        | [] => Ok (r, disk)
        | _ :: _ =>
            let tokenized_corpus :=
              List.map (fun doc => Str.split (Str.lower (page_content doc))) docs in
            let r := set_index r (Some {| vs_docs := docs |})
                       (Some {| bm25_corpus := tokenized_corpus |}) docs (index_hash r) in
            do r <- _build_retrievers r;
            let r := set_index r (vector_store r) (bm25 r) (documents r)
                       (Some current_hash) in
            Ok (r, _save_index r disk now)
        end
    end.

(** [MasterActionsTool.__init__] *)
Definition tool_init (cache_dir : option string) (document_paths : option (list string))
    (s3_version_hash : option string) (force_rebuild : bool)
    (fs : FileSystem) (disk : IndexDisk) (now : Q) : exc (Tool * IndexDisk) :=
  let retriever_instance := __init__ cache_dir document_paths s3_version_hash in
  do built <- build_index retriever_instance fs disk now force_rebuild;
  let '(r, disk') := built in
  Ok ({| retriever := r; _last_sources := [] |}, disk').

End Retrieval.

(** * Sample data *)

Module Sample.

(** A set order: first occurrences, in order. *)
Definition set_iter : list string -> list string := remove_dups.

Definition guide : Document :=
  {| page_content := "Action Name: Apply Leave. Step 1: open HR portal. Step 2: click Apply Leave.";
     meta_source := Some "Master Guide.docx";
     meta_file_path := Some "/cache/Master Guide.docx";
     meta_type := Some "master_actions";
     meta_chunk_id := Some 0%Z |}.

Definition note : Document :=
  {| page_content := "Payroll runs on the last working day.";
     meta_source := Some "Master Guide.docx";
     meta_file_path := Some "/cache/Master Guide.docx";
     meta_type := Some "master_actions";
     meta_chunk_id := Some 1%Z |}.

Definition invoke_ok (e : EnsembleRetriever) (q : string) : exc (list Document) :=
  Ok [note; guide].

Definition invoke_fails (e : EnsembleRetriever) (q : string) : exc (list Document) :=
  Raise "index out of range".

Definition docx_load (path : string) : exc (list Document) :=
  Ok [{| page_content := page_content guide;
         meta_source := None; meta_file_path := None; meta_type := None;
         meta_chunk_id := None |}].

Definition split_documents (size overlap : Z) (docs : list Document) : list Document := docs.

Definition project_root : string := "/app".

Definition empty_fs : FileSystem :=
  {| fs_exists := fun _ => false; fs_glob_docx := fun _ => []; fs_mtime := fun _ => None |}.

Definition cache_fs : FileSystem :=
  {| fs_exists := fun p => bool_decide (p = "/cache") || bool_decide (p = "/cache/Master Guide.docx");
     fs_glob_docx := fun p => if bool_decide (p = "/cache") then ["/cache/Master Guide.docx"] else [];
     fs_mtime := fun p => if bool_decide (p = "/cache/Master Guide.docx") then Some "1700000000.5" else None |}.

Definition no_disk : IndexDisk := {| vector_path := None; bm25_path := None |}.

Definition fresh : Retriever := __init__ (Some "/cache") None None.

(** A retriever as [build_index] leaves it for [cache_fs], and the
    disk it writes at time 1000. *)
Definition built : exc (Retriever * IndexDisk) :=
  build_index docx_load split_documents project_root fresh cache_fs no_disk 1000 false.

Definition ready : Retriever :=
  Eval vm_compute in
    match built with
    | Ok (r, _) => r
    | Raise _ => fresh
    end.

Definition saved : IndexDisk :=
  Eval vm_compute in
    match built with
    | Ok (_, disk) => disk
    | Raise _ => no_disk
    end.

Definition query : string := "how do I apply for leave".

Definition tool : Tool := {| retriever := ready; _last_sources := [] |}.

(** The result of the first search for [query], at time 0. *)
Definition found : list ActionSearchResult * Cache :=
  Eval vm_compute in
    match search set_iter invoke_ok ready empty_cache 0 query (Some 5%Z) with
    | Ok p => p
    | Raise _ => ([], empty_cache)
    end.

(** Two local documents and their modification times. *)
Definition paths_fs : FileSystem :=
  {| fs_exists := fun _ => true;
     fs_glob_docx := fun _ => [];
     fs_mtime := fun p =>
       if bool_decide (p = "docs/leave guide.docx") then Some "1700000000.25"
       else if bool_decide (p = "docs/action steps.docx") then Some "1700000321.0"
       else None |}.

Definition by_paths (paths : list string) : Retriever := __init__ None (Some paths) None.

Definition broken_cache : Cache :=
  {| cache_entries := ∅; cache_fault := Some "database is locked" |}.

End Sample.

(** * Predicates of the statements *)

(** [best] is the maximum of [xs]. *)
Definition is_max (best : Q) (xs : list Q) : Prop :=
  In best xs /\ Forall (fun y => (y <= best)%Q) xs.

(** A populated output of [_run]. *)
Definition is_payload (set_iter : list string -> list string) (output : string) : Prop :=
  exists results, results <> [] /\ output = format_output set_iter results.

(** The head of a list bounds the scores of the list from above. *)
Definition head_is_top (l : list ActionSearchResult) : Prop :=
  match l with
  | [] => True
  | h :: _ => Forall (fun x => (score x <= score h)%Q) l
  end.

(** A cached result list is empty or holds a score of at least 1. *)
Definition cache_sound (cache : Cache) : Prop :=
  forall key entry,
    cache_entries cache !! key = Some entry ->
    ce_value entry = [] \/ Exists (fun res => (1 <= score res)%Q) (ce_value entry).

(** The caches that arise from an empty store through searches (of any
    retriever, at any time) and through failures and recoveries of the
    store. *)
Inductive cache_reachable : Cache -> Prop :=
| reach_empty : cache_reachable empty_cache
| reach_search set_iter invoke r cache now query k results cache' :
    cache_reachable cache ->
    search set_iter invoke r cache now query k = Ok (results, cache') ->
    cache_reachable cache'
| reach_fault cache fault :
    cache_reachable cache ->
    cache_reachable {| cache_entries := cache_entries cache; cache_fault := fault |}.

(** The retriever with the five configuration attributes replaced. *)
Definition set_config (r : Retriever) (size overlap k : Z) (wb wv : Q) : Retriever :=
  {| vector_store := vector_store r;
     bm25 := bm25 r;
     bm25_retriever := bm25_retriever r;
     faiss_retriever := faiss_retriever r;
     ensemble_retriever := ensemble_retriever r;
     documents := documents r;
     cache_dir := cache_dir r;
     document_paths := document_paths r;
     s3_version_hash := s3_version_hash r;
     index_hash := index_hash r;
     chunk_size := size;
     chunk_overlap := overlap;
     top_k := k;
     bm25_weight := wb;
     vector_weight := wv |}.

(** The build configuration record: chunk_size, chunk_overlap, top_k,
    bm25_weight, vector_weight, confidence_threshold. *)
Definition build_config (r : Retriever) (confidence_threshold : Q)
    : Z * Z * Z * Q * Q * Q :=
  (chunk_size r, chunk_overlap r, top_k r, bm25_weight r, vector_weight r,
   confidence_threshold).

(** Two retrievers, each with its file system, have the same corpus
    identity: the same version tag, or no tag and the same document paths
    (in any order) with the same modification times. *)
Definition same_corpus (fs1 : FileSystem) (r1 : Retriever)
    (fs2 : FileSystem) (r2 : Retriever) : Prop :=
  (exists tag, tag <> "" /\ s3_version_hash r1 = Some tag /\ s3_version_hash r2 = Some tag) \/
  (nonempty (s3_version_hash r1) = None /\ nonempty (s3_version_hash r2) = None /\
   Permutation (default [] (document_paths r1)) (default [] (document_paths r2)) /\
   forall path, In path (default [] (document_paths r1)) ->
                fs_mtime fs1 path = fs_mtime fs2 path).

Fixpoint all_chars (p : ascii -> bool) (s : string) : bool :=
  match s with
  | EmptyString => true
  | String c s' => p c && all_chars p s'
  end.

Definition is_num_char (c : ascii) : bool := Str.is_digit c || Ascii.eqb c "-".

(** * Rank fusion *)

#[global] Instance Document_eq_dec : EqDecision Document.
Proof. solve_decision. Defined.

(** The 0-based rank of a chunk in a ranked list, if it occurs there. *)
Fixpoint rank_of (chunk : Document) (ranked : list Document) : option nat :=
  match ranked with
  | [] => None
  | d :: rest => if decide (d = chunk) then Some O else option_map S (rank_of chunk rest)
  end.

(** Modelled from the spec: the share of one ranked list in the fused
    score of the ensemble retriever, whose fusion routine belongs to the
    external [EnsembleRetriever] class and is not part of the sources.
    Section 4.5: a weight over the rank plus one, and zero for a chunk
    absent from the list. *)
Definition rank_share (weight : Q) (rank : option nat) : Q :=
  match rank with
  | Some r => (weight / inject_Z (Z.of_nat r + 1))%Q
  | None => 0%Q
  end.

(** Modelled from the spec: the fused score of a chunk, the sum of the
    shares of the ranked lists, each under the weight of its retriever
    (the fusion routine of the external [EnsembleRetriever] is not part
    of the sources). *)
Fixpoint fused_score (weights : list Q) (rankings : list (list Document))
    (chunk : Document) : Q :=
  match weights, rankings with
  | w :: ws, ranked :: rest =>
      (rank_share w (rank_of chunk ranked) + fused_score ws rest chunk)%Q
  | _, _ => 0%Q
  end.

(** * Predicates of the further properties *)

(** Larger scores first. *)
Definition by_score_desc (a b : ActionSearchResult) : Prop := (score b <= score a)%Q.


(** The retriever can serve searches, and its index carries the
    fingerprint [h]. *)
Definition ready (h : string) (r : Retriever) : Prop :=
  documents r <> [] /\
  vector_store r = Some {| vs_docs := documents r |} /\
  (exists index, bm25 r = Some index) /\
  (exists sparse dense,
      bm25_retriever r = Some sparse /\ faiss_retriever r = Some dense /\
      ensemble_retriever r
      = Some {| retrievers := [Sparse sparse; Dense dense];
                weights := [bm25_weight r; vector_weight r] |}) /\
  index_hash r = Some h.


(** The part of [build_index] after the persisted index has been
    deleted or has failed to load: load and chunk the master document,
    build the indexes, save them. *)
Definition build_from_documents (docx_load : string -> exc (list Document))
    (split_documents : Z -> Z -> list Document -> list Document) (project_root : string)
    (r : Retriever) (fs : FileSystem) (disk : IndexDisk) (now : Q) (current_hash : string)
    : exc (Retriever * IndexDisk) :=
  match _load_master_document docx_load project_root fs r with
  | [] => Ok (r, disk)
  | raw_docs =>
      let docs := _chunk_documents split_documents r raw_docs in
      let r := set_index r (vector_store r) (bm25 r) docs (index_hash r) in
      match docs with
      | [] => Ok (r, disk)
      | _ :: _ =>
          let tokenized_corpus :=
            List.map (fun doc => Str.split (Str.lower (page_content doc))) docs in
          let r := set_index r (Some {| vs_docs := docs |})
                     (Some {| bm25_corpus := tokenized_corpus |}) docs (index_hash r) in
          do r <- _build_retrievers r;
          let r := set_index r (vector_store r) (bm25 r) (documents r)
                     (Some current_hash) in
          Ok (r, _save_index r disk now)
      end
  end.

(** The cache lookup gives nothing that [search] would return: no live
    entry, or a live entry holding the empty list. *)
Definition cache_miss (cache : Cache) (now : Q) (key : string) : Prop :=
  cache_get cache now key = Ok None \/ cache_get cache now key = Ok (Some []).

Definition no_colon (s : string) : bool :=
  all_chars (fun c => negb (Ascii.eqb c ":")) s.

Definition no_bracket (s : string) : bool :=
  all_chars (fun c => negb (Ascii.eqb c "[")) s.

Definition is_hex_char (c : ascii) : bool :=
  Str.is_digit c || Str.ascii_in 97 102 c.

(** * Auxiliary lemmas *)

(** ** The sample data are what the code computes *)

Example sample_build : Sample.built = Ok (Sample.ready, Sample.saved).
Proof. vm_compute. reflexivity. Qed.

Example sample_search :
  search Sample.set_iter Sample.invoke_ok Sample.ready empty_cache 0 Sample.query (Some 5%Z)
  = Ok Sample.found.
Proof. reflexivity. Qed.

(** ** The digest on known inputs *)

Example md5_empty : MD5.hexdigest "" = "d41d8cd98f00b204e9800998ecf8427e".
Proof. vm_compute. reflexivity. Qed.

Example md5_abc : MD5.hexdigest "abc" = "900150983cd24fb0d6963f7d28e17f72".
Proof. vm_compute. reflexivity. Qed.

Example md5_two_blocks :
  MD5.hexdigest "aaaaaaaaaaaaaaaaaaaaaaaaaaaaaaaaaaaaaaaaaaaaaaaaaaaaaaaaaaaaaaaaaaaaaa"
  = "0f5c6c4e740bfcc08c3c26ccb2673d46".
Proof. vm_compute. reflexivity. Qed.

Example md5_default_config :
  MD5.hexdigest "chunk:600|overlap:150master_actions_v2"
  = "267b8b56d3c72538b26c6924b0349c2e".
Proof. vm_compute. reflexivity. Qed.

Lemma Qltb_lt (x y : Q) : Qltb x y = true <-> (x < y)%Q.
Proof.
  unfold Qltb. rewrite negb_true_iff, <- not_true_iff_false, Qle_bool_iff.
  split; [apply Qnot_le_lt | apply Qlt_not_le].
Qed.

Lemma Qltb_ge (x y : Q) : Qltb x y = false <-> (y <= x)%Q.
Proof.
  unfold Qltb. rewrite negb_false_iff. apply Qle_bool_iff.
Qed.

Lemma List_filter_stdpp {A} (f : A -> bool) (l : list A) :
  List.filter f l = filter (fun x => f x = true) l.
Proof.
  induction l as [|x l IH]; [reflexivity|].
  cbn [List.filter]. rewrite filter_cons, <- IH.
  destruct (decide (f x = true)) as [E|E].
  - now rewrite E.
  - now apply not_true_is_false in E; rewrite E.
Qed.

(** The hit count is the number of distinct tokens found in the text. *)
Lemma keyword_hits_size (tokens : gset string) (text : string) :
  keyword_hits tokens text
  = size (filter (fun token => Str.contains token text = true) tokens).
Proof.
  unfold keyword_hits, size, set_size. cbn.
  rewrite List_filter_stdpp.
  unfold filter at 2, set_filter.
  apply Permutation_length. symmetry.
  apply elements_list_to_set, NoDup_filter, NoDup_elements.
Qed.

Lemma score_docs_lookup (query : string) (docs : list Document) (rank : nat) :
  score_docs query docs !! rank = score_doc (query_tokens query) rank <$> docs !! rank.
Proof. unfold score_docs. apply list_lookup_imap. Qed.

Lemma py_max_spec (xs : list Q) (x : Q) :
  exists best, py_max (x :: xs) = Ok best /\ In best (x :: xs) /\
               Forall (fun y => (y <= best)%Q) (x :: xs).
Proof.
  cbn [py_max]. eexists; split; [reflexivity|].
  revert x. induction xs as [|y ys IH]; intros x; cbn [List.fold_left].
  - split; [now left|]. repeat constructor. apply Qle_refl.
  - destruct (Qltb x y) eqn:E.
    + destruct (IH y) as [Hin Hall]. split.
      * destruct Hin as [<-|Hin]; [right; now left | right; now right].
      * apply Qltb_lt in E. inversion Hall as [|? ? Hy Hys]; subst.
        constructor; [|constructor; assumption].
        eapply Qle_trans; [apply Qlt_le_weak, E | exact Hy].
    + destruct (IH x) as [Hin Hall]. split.
      * destruct Hin as [<-|Hin]; [now left | right; now right].
      * apply Qltb_ge in E. inversion Hall as [|? ? Hx Hys]; subst.
        constructor; [assumption|]. constructor; [|assumption].
        eapply Qle_trans; [exact E | exact Hx].
Qed.

(** * Properties *)

(** C6: the candidate at 0-based rank [r] of the fused list is given the
    score [1/(r+1)], plus [0.1] for each distinct query token (stop words
    removed) that occurs in the lower-cased chunk text, plus [0.2] when
    that text contains one of the action markers. *)
Theorem rescoring_formula (query : string) (docs : list Document) (r : nat) (doc : Document) :
  docs !! r = Some doc ->
  exists res,
    score_docs query docs !! r = Some res /\
    content res = page_content doc /\
    (score res ==
       1 / inject_Z (Z.of_nat r + 1)
       + (1 # 10) * inject_Z (Z.of_nat (size
           (filter (fun token => Str.contains token (Str.lower (page_content doc)) = true)
                   (query_tokens query))))
       + (if Str.contains_any action_markers (Str.lower (page_content doc))
          then 2 # 10 else 0))%Q /\
    (forall token, token ∈ query_tokens query <->
       token ∈ findall_words (Str.lower query) /\ token ∉ stop_words).
Proof.
  intros Hdoc. exists (score_doc (query_tokens query) r doc).
  split; [rewrite score_docs_lookup, Hdoc; reflexivity|].
  split; [reflexivity|]. split.
  - cbn [score_doc score]. rewrite keyword_hits_size. reflexivity.
  - intros token. unfold query_tokens.
    rewrite elem_of_difference, elem_of_list_to_set. reflexivity.
Qed.

Lemma rescoring_formula_witness :
  exists res,
    score_docs "how do I apply for leave" [Sample.note; Sample.guide] !! 1%nat = Some res /\
    content res = page_content Sample.guide /\
    (score res ==
       1 / inject_Z (Z.of_nat 1 + 1)
       + (1 # 10) * inject_Z (Z.of_nat (size
           (filter (fun token => Str.contains token (Str.lower (page_content Sample.guide)) = true)
                   (query_tokens "how do I apply for leave"))))
       + (if Str.contains_any action_markers (Str.lower (page_content Sample.guide))
          then 2 # 10 else 0))%Q /\
    (forall token, token ∈ query_tokens "how do I apply for leave" <->
       token ∈ findall_words (Str.lower "how do I apply for leave") /\ token ∉ stop_words).
Proof.
  apply (rescoring_formula "how do I apply for leave" [Sample.note; Sample.guide] 1 Sample.guide).
  reflexivity.
Defined.

Example rescoring_example :
  List.map (fun res => Qred (score res))
    (score_docs "how do I apply for leave" [Sample.note; Sample.guide])
  = [1 # 1; 9 # 10]%Q.
Proof. vm_compute. reflexivity. Qed.

(** ** Sorting and truncation *)

Lemma insert_desc_perm (x : ActionSearchResult) (l : list ActionSearchResult) :
  Permutation (insert_desc x l) (x :: l).
Proof.
  induction l as [|y l IH]; cbn [insert_desc]; [reflexivity|].
  destruct (Qltb (score x) (score y)); [|reflexivity].
  rewrite IH. apply perm_swap.
Qed.

Lemma sort_desc_perm (l : list ActionSearchResult) : Permutation (sort_desc l) l.
Proof.
  induction l as [|x l IH]; cbn; [reflexivity|].
  rewrite insert_desc_perm. now constructor.
Qed.

Lemma insert_desc_top (x : ActionSearchResult) (l : list ActionSearchResult) :
  head_is_top l -> head_is_top (insert_desc x l).
Proof.
  destruct l as [|y l]; cbn [insert_desc head_is_top].
  - intros _. repeat constructor. apply Qle_refl.
  - intros Hall. destruct (Qltb (score x) (score y)) eqn:E.
    + apply Qltb_lt in E.
      eapply Permutation_Forall; [symmetry; apply (perm_skip y), insert_desc_perm|].
      inversion Hall; subst.
      constructor; [assumption|]. constructor; [apply Qlt_le_weak, E | assumption].
    + apply Qltb_ge in E. constructor; [apply Qle_refl|].
      eapply Forall_impl; [exact Hall|].
      intros z Hz. eapply Qle_trans; [exact Hz | exact E].
Qed.

Lemma sort_desc_top (l : list ActionSearchResult) : head_is_top (sort_desc l).
Proof.
  induction l as [|x l IH]; cbn [sort_desc List.fold_right]; [exact I|].
  now apply insert_desc_top.
Qed.

Lemma slice_to_head {A} (k : Z) (l : list A) (x : A) (xs : list A) :
  slice_to k l = x :: xs -> exists l', l = x :: l'.
Proof.
  unfold slice_to. destruct (0 <=? k)%Z.
  - destruct (Z.to_nat k), l; cbn; intros [= -> _] || intros [=]. eauto.
  - destruct (Z.to_nat _), l; cbn; intros [= -> _] || intros [=]. eauto.
Qed.

Lemma score_doc_rank0 (tokens : gset string) (doc : Document) :
  (1 <= score (score_doc tokens 0 doc))%Q.
Proof.
  cbn [score_doc score].
  set (hits := keyword_hits tokens _).
  assert (0 <= (1 # 10) * inject_Z (Z.of_nat hits))%Q as Hk.
  { apply Qmult_le_0_compat; [discriminate|].
    unfold Qle; cbn. lia. }
  assert (1 / inject_Z (Z.of_nat 0 + 1) == 1)%Q as -> by reflexivity.
  destruct (Str.contains_any _ _); lra.
Qed.

(** A non-empty slice of the sorted scored candidates starts with a
    result whose score is at least 1. *)
Lemma ranked_head_at_least_one (query : string) (docs : list Document) (k : Z)
    (x : ActionSearchResult) (xs : list ActionSearchResult) :
  docs <> [] ->
  slice_to k (sort_desc (score_docs query docs)) = x :: xs ->
  (1 <= score x)%Q.
Proof.
  intros Hdocs Hslice.
  destruct docs as [|d ds]; [contradiction|].
  apply slice_to_head in Hslice as [l' Hsort].
  pose proof (sort_desc_top (score_docs query (d :: ds))) as Htop.
  rewrite Hsort in Htop. cbn [head_is_top] in Htop.
  eapply Permutation_Forall in Htop;
    [|rewrite <- Hsort; apply sort_desc_perm].
  unfold score_docs in Htop. rewrite imap_cons in Htop.
  inversion Htop as [|? ? H0 _]; subst.
  eapply Qle_trans; [apply score_doc_rank0 | exact H0].
Qed.

(** ** The search and its cache *)

Section SearchFacts.

Variable set_iter : list string -> list string.
Variable ensemble_invoke : EnsembleRetriever -> string -> exc (list Document).

Lemma cache_get_sound (cache : Cache) (now : Q) (key : string)
    (results : list ActionSearchResult) :
  cache_sound cache ->
  cache_get cache now key = Ok (Some results) ->
  results = [] \/ Exists (fun res => (1 <= score res)%Q) results.
Proof.
  intros Hsound. unfold cache_get.
  destruct (cache_fault cache); [discriminate|].
  destruct (cache_entries cache !! key) as [e|] eqn:He; [|discriminate].
  destruct (Qltb now (ce_expire_time e)); [|discriminate].
  intros [= <-]. exact (Hsound key e He).
Qed.

Lemma cache_set_sound (cache cache' : Cache) (now expire : Q) (key : string)
    (results : list ActionSearchResult) :
  cache_sound cache ->
  results = [] \/ Exists (fun res => (1 <= score res)%Q) results ->
  cache_set cache now key results expire = Ok cache' ->
  cache_sound cache'.
Proof.
  intros Hsound Hres. unfold cache_set.
  destruct (cache_fault cache); [discriminate|].
  intros [= <-] key' e. cbn [cache_entries].
  rewrite lookup_insert. destruct (decide (key = key')).
  - intros [= <-]. exact Hres.
  - apply Hsound.
Qed.

(** How a populated result list comes out of [search]: from a live
    cache entry, or from scoring, sorting and truncating the documents
    of the ensemble retriever. *)
Lemma search_populated (r : Retriever) (cache cache' : Cache) (now : Q) (query : string)
    (k : option Z) (x : ActionSearchResult) (xs : list ActionSearchResult) :
  search set_iter ensemble_invoke r cache now query k = Ok (x :: xs, cache') ->
  let key := cache_key r (_expand_query set_iter query) (top_k_or k (top_k r)) in
  (cache_get cache now key = Ok (Some (x :: xs)) /\ cache' = cache) \/
  (exists e docs,
      ensemble_retriever r = Some e /\
      ensemble_invoke e (_expand_query set_iter query) = Ok docs /\
      docs <> [] /\
      x :: xs = slice_to (top_k_or k (top_k r)) (sort_desc (score_docs query docs)) /\
      cache_set cache now key (x :: xs) 3600 = Ok cache').
Proof.
  unfold search.
  destruct (vector_store r); [|discriminate].
  destruct (ensemble_retriever r) as [e|]; [|discriminate].
  destruct (documents r) as [|d0 ds0]; [discriminate|].
  destruct (cache_get cache now _) as [cached|] eqn:Hget; cbn [exc_bind]; [|discriminate].
  destruct cached as [[|c cs]|];
    [ | intros [= <- <- <-]; left; split; reflexivity | ];
    (destruct (ensemble_invoke e _) as [[|d ds]|msg] eqn:Hinv;
       [discriminate| |discriminate];
     remember (slice_to _ _) as res eqn:Hres;
     destruct (cache_set cache now _ res 3600) as [c0|] eqn:Hset; cbn [exc_bind];
       [|discriminate];
     intros [= -> <-]; right; exists e, (d :: ds);
     repeat split; [exact Hinv | discriminate | exact Hres | exact Hset]).
Qed.

Lemma search_keeps_sound (r : Retriever) (cache cache' : Cache) (now : Q) (query : string)
    (k : option Z) (results : list ActionSearchResult) :
  cache_sound cache ->
  search set_iter ensemble_invoke r cache now query k = Ok (results, cache') ->
  cache_sound cache' /\
  (results = [] \/ Exists (fun res => (1 <= score res)%Q) results).
Proof.
  intros Hsound Hsearch. destruct results as [|x xs].
  - split; [|now left]. revert Hsearch. unfold search.
    destruct (vector_store r); [|now intros [= <-]].
    destruct (ensemble_retriever r) as [e|]; [|now intros [= <-]].
    destruct (documents r) as [|d0 ds0]; [now intros [= <-]|].
    destruct (cache_get cache now _) as [cached|]; cbn [exc_bind]; [|discriminate].
    destruct cached as [[|c cs]|]; try discriminate;
      (destruct (ensemble_invoke e _) as [[|d ds]|]; [now intros [= <-] | | now intros [= <-]]);
      remember (slice_to _ _) as res eqn:Hres;
      (destruct (cache_set cache now _ res 3600) eqn:Hset; cbn [exc_bind]; [|discriminate]);
      intros [= -> <-];
      eapply cache_set_sound; eauto.
  - apply search_populated in Hsearch as [[Hget ->]|(e & docs & _ & _ & Hdocs & Hres & Hset)].
    + split; [assumption|]. eapply cache_get_sound; eauto.
    + assert (Exists (fun res => (1 <= score res)%Q) (x :: xs)) as Hex.
      { left. eapply ranked_head_at_least_one; [exact Hdocs | symmetry; exact Hres]. }
      split; [|now right]. eapply cache_set_sound; eauto.
Qed.

End SearchFacts.

Lemma cache_reachable_sound (cache : Cache) : cache_reachable cache -> cache_sound cache.
Proof.
  induction 1 as [| set_iter invoke r cache now query k results cache' _ IH Hsearch
                  | cache fault _ IH].
  - intros key e. cbn. rewrite lookup_empty. discriminate.
  - eapply search_keeps_sound; eauto.
  - exact IH.
Qed.

Lemma exists_score_max (results : list ActionSearchResult) (best : Q) :
  Exists (fun res => (1 <= score res)%Q) results ->
  is_max best (List.map score results) ->
  (1 <= best)%Q.
Proof.
  intros Hex [_ Hall]. apply Exists_exists in Hex as (res & Hin & Hres).
  rewrite Forall_forall in Hall.
  eapply Qle_trans; [exact Hres|]. apply Hall.
  apply list_elem_of_In, in_map, list_elem_of_In, Hin.
Qed.

(** ** The tool entry point *)

Lemma is_max_le (best best' : Q) (xs : list Q) :
  is_max best xs -> is_max best' xs -> (best' <= best)%Q.
Proof.
  intros [_ Hall] [Hin _]. rewrite Forall_forall in Hall.
  apply Hall, list_elem_of_In, Hin.
Qed.

Lemma format_output_head (set_iter : list string -> list string)
    (results : list ActionSearchResult) :
  exists rest, format_output set_iter results = String "F" rest.
Proof. unfold format_output. cbn. eauto. Qed.

Lemma sentinel_not_payload (set_iter : list string -> list string) :
  ~ is_payload set_iter NO_ACTION_FOUND.
Proof.
  intros (results & _ & H).
  destruct (format_output_head set_iter results) as [rest Hrest].
  rewrite Hrest in H. discriminate.
Qed.

Lemma error_not_payload (set_iter : list string -> list string) (msg : string) :
  ~ is_payload set_iter ("Error searching actions: " ++ msg).
Proof.
  intros (results & _ & H).
  destruct (format_output_head set_iter results) as [rest Hrest].
  rewrite Hrest in H. discriminate.
Qed.

Section Gate.

Variable set_iter : list string -> list string.
Variable ensemble_invoke : EnsembleRetriever -> string -> exc (list Document).
Variable CONFIDENCE_THRESHOLD : Q.

Lemma cache_get_raise (cache : Cache) (now : Q) (key msg : string) :
  cache_get cache now key = Raise msg -> cache_fault cache = Some msg.
Proof. unfold cache_get. destruct (cache_fault cache); now intros [= <-]. Qed.

Lemma cache_set_raise (cache : Cache) (now expire : Q) (key msg : string)
    (value : list ActionSearchResult) :
  cache_set cache now key value expire = Raise msg -> cache_fault cache = Some msg.
Proof. unfold cache_set. destruct (cache_fault cache); now intros [= <-]. Qed.

(** Only the cache store makes [search] raise. *)
Lemma search_raise (r : Retriever) (cache : Cache) (now : Q) (query msg : string)
    (k : option Z) :
  search set_iter ensemble_invoke r cache now query k = Raise msg ->
  cache_fault cache = Some msg.
Proof.
  unfold search.
  destruct (vector_store r); [|discriminate].
  destruct (ensemble_retriever r) as [e|]; [|discriminate].
  destruct (documents r) as [|d0 ds0]; [discriminate|].
  destruct (cache_get cache now _) as [cached|msg'] eqn:Hget; cbn [exc_bind].
  - destruct cached as [[|c cs]|]; try discriminate;
      (destruct (ensemble_invoke e _) as [[|d ds]|]; try discriminate;
       remember (slice_to _ _) as res eqn:Hres;
       destruct (cache_set cache now _ res 3600) eqn:Hset; cbn [exc_bind];
         [discriminate|];
       intros [= <-]; eapply cache_set_raise; eauto).
  - intros [= <-]. eapply cache_get_raise; eauto.
Qed.

Lemma search_unbuilt_documents (r : Retriever) (cache : Cache) (now : Q) (query : string)
    (k : option Z) :
  documents r = [] ->
  search set_iter ensemble_invoke r cache now query k = Ok ([], cache).
Proof.
  intros Hdocs. unfold search. rewrite Hdocs.
  destruct (vector_store r), (ensemble_retriever r); reflexivity.
Qed.

(** What the body of [_run] does with a populated result list. *)
Lemma run_body_populated (t : Tool) (cache cache' : Cache) (now : Q) (query : string)
    (x : ActionSearchResult) (xs : list ActionSearchResult) :
  search set_iter ensemble_invoke (retriever t) cache now query (Some 5%Z)
    = Ok (x :: xs, cache') ->
  exists best,
    is_max best (List.map score (x :: xs)) /\
    run_body set_iter ensemble_invoke CONFIDENCE_THRESHOLD t cache now query
    = Ok (if Qltb best CONFIDENCE_THRESHOLD
          then (NO_ACTION_FOUND, [], cache')
          else (format_output set_iter (x :: xs),
                set_iter (List.map source (x :: xs)), cache')).
Proof.
  intros Hsearch. unfold run_body.
  destruct (documents (retriever t)) as [|d ds] eqn:Hdocs.
  { rewrite search_unbuilt_documents in Hsearch by assumption. discriminate. }
  rewrite Hsearch. cbn [exc_bind List.map].
  destruct (py_max_spec (List.map score xs) (score x)) as (best & Hmax & Hin & Hall).
  exists best. split; [split; assumption|].
  cbn [List.map] in Hmax. rewrite Hmax. cbn [exc_bind].
  destruct (Qltb best CONFIDENCE_THRESHOLD); reflexivity.
Qed.

(** C1: when the search returns a non-empty list whose maximum score is
    strictly below the confidence threshold, [_run] returns
    ["NO_ACTION_FOUND"], which is not a populated result list. *)
Theorem confidence_gate_suppresses (t : Tool) (cache cache' : Cache) (now : Q)
    (query : string) (results : list ActionSearchResult) (best : Q) :
  search set_iter ensemble_invoke (retriever t) cache now query (Some 5%Z)
    = Ok (results, cache') ->
  results <> [] ->
  is_max best (List.map score results) ->
  (best < CONFIDENCE_THRESHOLD)%Q ->
  _run set_iter ensemble_invoke CONFIDENCE_THRESHOLD t cache now query
    = (NO_ACTION_FOUND, {| retriever := retriever t; _last_sources := [] |}, cache') /\
  ~ is_payload set_iter NO_ACTION_FOUND.
Proof.
  intros Hsearch Hne Hmax Hlt. split; [|apply sentinel_not_payload].
  destruct results as [|x xs]; [contradiction|].
  destruct (run_body_populated t cache cache' now query x xs Hsearch)
    as (best' & Hmax' & Hbody).
  unfold _run. rewrite Hbody.
  assert (Qltb best' CONFIDENCE_THRESHOLD = true) as ->; [|reflexivity].
  apply Qltb_lt. eapply Qle_lt_trans; [|exact Hlt].
  eapply is_max_le; eauto.
Qed.

(** C3, as amended: [_run] never raises and returns the miss sentinel, a
    populated payload, or, when the cache store fails, the text
    ["Error searching actions: "] followed by the failure message; an
    exception of the ensemble retriever itself always gives the miss
    sentinel. *)
Theorem run_outcomes (t : Tool) (cache : Cache) (now : Q) (query : string) :
  let output := (_run set_iter ensemble_invoke CONFIDENCE_THRESHOLD t cache now query).1.1 in
  (output = NO_ACTION_FOUND \/
   is_payload set_iter output \/
   exists msg, cache_fault cache = Some msg /\ output = "Error searching actions: " ++ msg) /\
  (cache_fault cache = None ->
   (forall results,
       cache_get cache now
         (cache_key (retriever t) (_expand_query set_iter query) 5) = Ok (Some results) ->
       results = []) ->
   (forall e, ensemble_retriever (retriever t) = Some e ->
              exists msg, ensemble_invoke e (_expand_query set_iter query) = Raise msg) ->
   output = NO_ACTION_FOUND).
Proof.
  cbv zeta. split.
  - unfold _run, run_body.
    destruct (documents (retriever t)) as [|d ds] eqn:Hdocs; [now left|].
    destruct (search set_iter ensemble_invoke (retriever t) cache now query (Some 5%Z))
      as [[results cache']|msg] eqn:Hsearch; cbn [exc_bind].
    + destruct results as [|x xs]; [now left|].
      destruct (py_max_spec (List.map score xs) (score x)) as (best & Hmax & _).
      cbn [List.map]. rewrite Hmax. cbn [exc_bind].
      destruct (Qltb best CONFIDENCE_THRESHOLD); [now left|].
      right; left. exists (x :: xs). split; [discriminate | reflexivity].
    + right; right. exists msg. split; [|reflexivity].
      eapply search_raise; eauto.
  - intros Hfault Hmiss Hraise. unfold _run, run_body.
    destruct (documents (retriever t)) as [|d ds] eqn:Hdocs; [reflexivity|].
    assert (search set_iter ensemble_invoke (retriever t) cache now query (Some 5%Z)
            = Ok ([], cache)) as ->; [|reflexivity].
    unfold search. rewrite Hdocs.
    destruct (vector_store (retriever t)); [|reflexivity].
    destruct (ensemble_retriever (retriever t)) as [e|]; [|reflexivity].
    cbn [top_k_or Z.eqb].
    destruct (cache_get cache now _) as [cached|msg] eqn:Hget; cbn [exc_bind].
    + destruct (Hraise e eq_refl) as [msg Hmsg].
      destruct cached as [[|c cs]|]; [| |]; rewrite ?Hmsg; try reflexivity.
      specialize (Hmiss _ eq_refl). discriminate.
    + apply cache_get_raise in Hget. congruence.
Qed.

End Gate.

Lemma confidence_gate_suppresses_witness :
  _run Sample.set_iter Sample.invoke_ok 2 Sample.tool empty_cache 0 Sample.query
  = (NO_ACTION_FOUND, {| retriever := Sample.ready; _last_sources := [] |}, Sample.found.2) /\
  ~ is_payload Sample.set_iter NO_ACTION_FOUND.
Proof.
  eapply (confidence_gate_suppresses Sample.set_iter Sample.invoke_ok 2 Sample.tool
            empty_cache Sample.found.2 0 Sample.query Sample.found.1).
  - reflexivity.
  - discriminate.
  - split; [left; reflexivity|]. repeat constructor; vm_compute; discriminate.
  - reflexivity.
Defined.

(** C2: whenever [search] returns a non-empty list, over a cache that
    searches have filled, its maximum score is at least 1 (the candidate
    of rank 0 scores at least [1/(0+1)], and the sorted, truncated list
    keeps a top-scoring result in front); so with the default threshold
    [0.3] the gate of [_run] lets every non-empty result list through. *)
Theorem populated_results_pass_default_gate
    (set_iter : list string -> list string)
    (ensemble_invoke : EnsembleRetriever -> string -> exc (list Document))
    (r : Retriever) (cache cache' : Cache) (now : Q) (query : string) (k : option Z)
    (results : list ActionSearchResult) :
  cache_reachable cache ->
  search set_iter ensemble_invoke r cache now query k = Ok (results, cache') ->
  results <> [] ->
  (exists best, is_max best (List.map score results) /\ (1 <= best)%Q) /\
  (k = Some 5%Z ->
   forall sources,
     _run set_iter ensemble_invoke (3 # 10) {| retriever := r; _last_sources := sources |}
          cache now query
     = (format_output set_iter results,
        {| retriever := r; _last_sources := set_iter (List.map source results) |},
        cache')).
Proof.
  intros Hreach Hsearch Hne.
  destruct (search_keeps_sound _ _ _ _ _ _ _ _ _ (cache_reachable_sound _ Hreach) Hsearch)
    as [_ [->|Hex]]; [contradiction|].
  destruct results as [|x xs]; [contradiction|].
  split.
  - destruct (py_max_spec (List.map score xs) (score x)) as (best & _ & Hin & Hall).
    exists best. split; [split; assumption|].
    eapply exists_score_max; [exact Hex | split; assumption].
  - intros -> sources.
    destruct (run_body_populated set_iter ensemble_invoke (3 # 10)
                {| retriever := r; _last_sources := sources |} cache cache' now query x xs
                Hsearch) as (best & Hmax & Hbody).
    unfold _run. rewrite Hbody.
    assert (Qltb best (3 # 10) = false) as ->; [|reflexivity].
    apply Qltb_ge. eapply Qle_trans; [|eapply exists_score_max; eauto].
    discriminate.
Qed.

Lemma populated_results_pass_default_gate_witness :
  (exists best, is_max best (List.map score Sample.found.1) /\ (1 <= best)%Q) /\
  (Some 5%Z = Some 5%Z ->
   forall sources,
     _run Sample.set_iter Sample.invoke_ok (3 # 10)
          {| retriever := Sample.ready; _last_sources := sources |} empty_cache 0 Sample.query
     = (format_output Sample.set_iter Sample.found.1,
        {| retriever := Sample.ready;
           _last_sources := Sample.set_iter (List.map source Sample.found.1) |},
        Sample.found.2)).
Proof.
  apply (populated_results_pass_default_gate Sample.set_iter Sample.invoke_ok Sample.ready
           empty_cache Sample.found.2 0 Sample.query (Some 5%Z) Sample.found.1).
  - exact reach_empty.
  - reflexivity.
  - discriminate.
Defined.

(** C3, as stated, fails: with the cache store failing, [_run] answers
    with the text of the internal error. *)
Lemma run_returns_error_text :
  let output :=
    (_run Sample.set_iter Sample.invoke_ok (3 # 10) Sample.tool Sample.broken_cache 0
          Sample.query).1.1 in
  output = "Error searching actions: database is locked" /\
  ~ (output = NO_ACTION_FOUND \/ is_payload Sample.set_iter output).
Proof.
  cbv zeta.
  assert ((_run Sample.set_iter Sample.invoke_ok (3 # 10) Sample.tool Sample.broken_cache 0
                Sample.query).1.1 = "Error searching actions: " ++ "database is locked") as ->
    by (vm_compute; reflexivity).
  split; [reflexivity|]. intros [H|H]; [discriminate|].
  exact (error_not_payload _ _ H).
Qed.

Lemma run_outcomes_witness :
  (_run Sample.set_iter Sample.invoke_fails (3 # 10) Sample.tool empty_cache 0
        Sample.query).1.1 = NO_ACTION_FOUND.
Proof.
  apply (run_outcomes Sample.set_iter Sample.invoke_fails (3 # 10) Sample.tool empty_cache 0
           Sample.query).
  - reflexivity.
  - intros results H. vm_compute in H. discriminate.
  - intros e _. exists "index out of range". reflexivity.
Defined.

(** ** Strings and decimal numerals *)

Lemma string_app_assoc (a b c : string) : (a ++ b) ++ c = a ++ (b ++ c).
Proof.
  induction a as [|x a IH]; [reflexivity|].
  change (String x ((a ++ b) ++ c) = String x (a ++ (b ++ c))). now rewrite IH.
Qed.

(** Two strings that agree up to and after a separator which occurs in
    neither front part have the same parts. *)
Lemma split_at_separator (c : ascii) (s1 s2 t1 t2 : string) :
  all_chars (fun x => negb (Ascii.eqb x c)) s1 = true ->
  all_chars (fun x => negb (Ascii.eqb x c)) s2 = true ->
  s1 ++ String c t1 = s2 ++ String c t2 ->
  s1 = s2 /\ t1 = t2.
Proof.
  revert s2. induction s1 as [|x s1 IH]; intros [|y s2]; cbn.
  - intros _ _ [= ->]. now split.
  - intros _ Hy [= <- _]. rewrite Ascii.eqb_refl in Hy. discriminate.
  - intros Hx _ [= -> _]. rewrite Ascii.eqb_refl in Hx. discriminate.
  - intros [_ Hx]%andb_true_iff [_ Hy]%andb_true_iff [= -> H].
    destruct (IH _ Hx Hy H) as [-> ->]. now split.
Qed.

Lemma all_chars_impl (p q : ascii -> bool) (s : string) :
  (forall c, p c = true -> q c = true) -> all_chars p s = true -> all_chars q s = true.
Proof.
  intros Hpq. induction s as [|c s IH]; cbn; [reflexivity|].
  intros [Hc Hs]%andb_true_iff. now rewrite (Hpq _ Hc), IH.
Qed.

Lemma string_of_uint_digits (d : Decimal.uint) :
  all_chars is_num_char (NilEmpty.string_of_uint d) = true.
Proof. induction d; cbn; [reflexivity | assumption ..]. Qed.

Lemma of_Z_digits (n : Z) : all_chars is_num_char (Str.of_Z n) = true.
Proof.
  unfold Str.of_Z.
  destruct (Z.to_int n) as [d|d]; cbn [NilZero.string_of_int].
  - destruct d; try reflexivity; apply (string_of_uint_digits (_ d)).
  - cbn [all_chars]. destruct d; try reflexivity; apply (string_of_uint_digits (_ d)).
Qed.

Lemma of_Z_inj (a b : Z) : Str.of_Z a = Str.of_Z b -> a = b.
Proof.
  unfold Str.of_Z. intros H. apply DecimalZ.to_int_inj.
  assert (forall z, Z.to_int z <> Decimal.Pos Decimal.Nil /\
                    Z.to_int z <> Decimal.Neg Decimal.Nil) as Hnil.
  { intros [|p|p]; cbn; split; try discriminate;
      intros [= E]; exact (DecimalPos.Unsigned.to_uint_nonnil p E). }
  apply (f_equal NilZero.int_of_string) in H.
  rewrite !NilZero.isi in H by apply Hnil. congruence.
Qed.

(** ** The version fingerprint *)

Lemma sorted_permutation (l1 l2 : list string) :
  Permutation l1 l2 -> sorted l1 = sorted l2.
Proof.
  intros Hperm. unfold sorted.
  apply (Sorted_unique String.le); [apply Sorted_merge_sort; apply _ .. |].
  now rewrite !merge_sort_Permutation.
Qed.

(** The bytes hashed for the corpus part, whatever the shape of
    [document_paths]. *)
Lemma version_hasher_unfold (fs : FileSystem) (r : Retriever) :
  version_hasher fs r
  = Hasher.update
      (Hasher.update
         (match nonempty (s3_version_hash r) with
          | Some tag => Hasher.update Hasher.new tag
          | None => hash_paths fs (default [] (document_paths r)) Hasher.new
          end)
         ("chunk:" ++ Str.of_Z (chunk_size r) ++ "|overlap:" ++ Str.of_Z (chunk_overlap r)))
      "master_actions_v2".
Proof.
  unfold version_hasher.
  destruct (nonempty (s3_version_hash r)); [reflexivity|].
  destruct (document_paths r) as [[|p ps]|]; reflexivity.
Qed.

Lemma hash_paths_ext (fs1 fs2 : FileSystem) (l1 l2 : list string) (h : Hasher.t) :
  Permutation l1 l2 ->
  (forall path, In path l1 -> fs_mtime fs1 path = fs_mtime fs2 path) ->
  hash_paths fs1 l1 h = hash_paths fs2 l2 h.
Proof.
  intros Hperm Hmt. unfold hash_paths.
  rewrite <- (sorted_permutation l1 l2 Hperm).
  assert (forall path, In path (sorted l1) -> fs_mtime fs1 path = fs_mtime fs2 path) as Hs.
  { intros path Hin. apply Hmt.
    eapply Permutation_in; [apply (merge_sort_Permutation String.le) | exact Hin]. }
  revert h Hs. generalize (sorted l1) as l.
  induction l as [|x l IH]; intros h Hs; cbn [List.fold_left]; [reflexivity|].
  rewrite (Hs x) by now left.
  apply IH. intros path Hin. apply Hs. now right.
Qed.

(** C8: the fingerprint is a function of the corpus identity and of the
    chunking configuration: two computations with the same version tag,
    or with the same document paths in any order and the same
    modification times, and with the same chunk size and overlap, give the
    same fingerprint. *)
Theorem fingerprint_deterministic (fs1 fs2 : FileSystem) (r1 r2 : Retriever) :
  same_corpus fs1 r1 fs2 r2 ->
  chunk_size r1 = chunk_size r2 ->
  chunk_overlap r1 = chunk_overlap r2 ->
  _compute_version_hash fs1 r1 = _compute_version_hash fs2 r2.
Proof.
  intros Hcorpus Hsize Hoverlap. unfold _compute_version_hash.
  rewrite !version_hasher_unfold, Hsize, Hoverlap.
  destruct Hcorpus as [(tag & Hne & -> & ->)|(-> & -> & Hperm & Hmt)].
  - destruct tag; [contradiction | reflexivity].
  - now rewrite (hash_paths_ext fs1 fs2 _ _ _ Hperm Hmt).
Qed.

Lemma fingerprint_deterministic_witness :
  _compute_version_hash Sample.paths_fs
    (Sample.by_paths ["docs/leave guide.docx"; "docs/action steps.docx"])
  = _compute_version_hash Sample.paths_fs
    (Sample.by_paths ["docs/action steps.docx"; "docs/leave guide.docx"]).
Proof.
  apply (fingerprint_deterministic Sample.paths_fs Sample.paths_fs
           (Sample.by_paths ["docs/leave guide.docx"; "docs/action steps.docx"])
           (Sample.by_paths ["docs/action steps.docx"; "docs/leave guide.docx"])).
  - right. split; [reflexivity|]. split; [reflexivity|]. split.
    + apply perm_swap.
    + intros path _. reflexivity.
  - reflexivity.
  - reflexivity.
Defined.

Example fingerprint_of_two_paths :
  _compute_version_hash Sample.paths_fs
    (Sample.by_paths ["docs/leave guide.docx"; "docs/action steps.docx"])
  = MD5.hexdigest
      ("docs/action steps.docx" ++ "1700000321.0" ++ "docs/leave guide.docx" ++ "1700000000.25"
       ++ "chunk:600|overlap:150" ++ "master_actions_v2").
Proof. vm_compute. reflexivity. Qed.

Lemma num_char_not (c : ascii) :
  is_num_char c = false ->
  forall x, is_num_char x = true -> negb (Ascii.eqb x c) = true.
Proof.
  intros Hc x Hx. destruct (Ascii.eqb_spec x c) as [->|]; [congruence | reflexivity].
Qed.

(** The chunking part of the hashed bytes determines the chunk size and
    the overlap. *)
Lemma config_bytes_inj (corpus : string) (a b a' b' : Z) :
  Hasher.update
    (Hasher.update corpus ("chunk:" ++ Str.of_Z a ++ "|overlap:" ++ Str.of_Z b))
    "master_actions_v2"
  = Hasher.update
      (Hasher.update corpus ("chunk:" ++ Str.of_Z a' ++ "|overlap:" ++ Str.of_Z b'))
      "master_actions_v2" ->
  a = a' /\ b = b'.
Proof.
  unfold Hasher.update. rewrite !string_app_assoc. intros H.
  apply (inj (String.append corpus)) in H.
  apply (inj (String.append "chunk:")) in H.
  pose proof (fun n => all_chars_impl _ _ _ (num_char_not "|" eq_refl) (of_Z_digits n)) as Hbar.
  pose proof (fun n => all_chars_impl _ _ _ (num_char_not "m" eq_refl) (of_Z_digits n)) as Hm.
  destruct (split_at_separator "|" (Str.of_Z a) (Str.of_Z a')
              ("overlap:" ++ Str.of_Z b ++ "master_actions_v2")
              ("overlap:" ++ Str.of_Z b' ++ "master_actions_v2")
              (Hbar a) (Hbar a') H) as [Ha Hrest].
  apply (inj (String.append "overlap:")) in Hrest.
  destruct (split_at_separator "m" (Str.of_Z b) (Str.of_Z b')
              "aster_actions_v2" "aster_actions_v2" (Hm b) (Hm b') Hrest) as [Hb _].
  split; apply of_Z_inj; assumption.
Qed.

(** C4, as stated, fails: a different [top_k] leaves the fingerprint as
    it was. *)
Lemma fingerprint_ignores_top_k :
  let r1 := Sample.fresh in
  let r2 := set_config Sample.fresh 600 150 10 (6 # 10) (4 # 10) in
  same_corpus Sample.cache_fs r1 Sample.cache_fs r2 /\
  build_config r1 (3 # 10) <> build_config r2 (3 # 10) /\
  _compute_version_hash Sample.cache_fs r1 = _compute_version_hash Sample.cache_fs r2.
Proof.
  cbv zeta. split; [|split].
  - right. repeat split; reflexivity.
  - discriminate.
  - vm_compute. reflexivity.
Qed.

(** C4, as amended: with the corpus identity fixed, the fingerprint
    depends on the configuration through [chunk_size] and [chunk_overlap]
    only. Configurations that agree on the two give the same fingerprint,
    whatever their [top_k] and weights (the confidence threshold is no
    input at all); configurations that differ in one of the two feed
    different bytes to the digest. *)
Theorem fingerprint_tracks_chunking_only (fs : FileSystem) (r : Retriever)
    (size overlap k : Z) (wb wv : Q) (size' overlap' k' : Z) (wb' wv' : Q) :
  let r1 := set_config r size overlap k wb wv in
  let r2 := set_config r size' overlap' k' wb' wv' in
  (size = size' -> overlap = overlap' ->
   _compute_version_hash fs r1 = _compute_version_hash fs r2) /\
  (size <> size' \/ overlap <> overlap' ->
   version_hasher fs r1 <> version_hasher fs r2).
Proof.
  cbv zeta. split.
  - intros -> ->. unfold _compute_version_hash. f_equal.
  - intros Hdiff Heq. rewrite !version_hasher_unfold in Heq.
    cbn [set_config s3_version_hash document_paths chunk_size chunk_overlap] in Heq.
    apply config_bytes_inj in Heq as [-> ->]. destruct Hdiff; congruence.
Qed.

Lemma fingerprint_tracks_chunking_only_witness :
  _compute_version_hash Sample.cache_fs (set_config Sample.fresh 600 150 5 (6 # 10) (4 # 10))
  = _compute_version_hash Sample.cache_fs (set_config Sample.fresh 600 150 12 (1 # 2) (1 # 2)) /\
  version_hasher Sample.cache_fs (set_config Sample.fresh 600 150 5 (6 # 10) (4 # 10))
  <> version_hasher Sample.cache_fs (set_config Sample.fresh 600 100 5 (6 # 10) (4 # 10)).
Proof.
  split.
  - apply (fingerprint_tracks_chunking_only Sample.cache_fs Sample.fresh
             600 150 5 (6 # 10) (4 # 10) 600 150 12 (1 # 2) (1 # 2)); reflexivity.
  - apply (fingerprint_tracks_chunking_only Sample.cache_fs Sample.fresh
             600 150 5 (6 # 10) (4 # 10) 600 100 5 (6 # 10) (4 # 10)).
    right. discriminate.
Defined.


(** ** Loading the persisted index *)

Lemma build_retrievers_ok (r : Retriever) (vs : VectorStore) :
  vector_store r = Some vs -> exists r', _build_retrievers r = Ok r'.
Proof.
  intros Hvs. unfold _build_retrievers. rewrite Hvs.
  destruct (documents r); eauto.
Qed.

(** A load that reports [False] has installed nothing. *)
Lemma load_index_false (r r' : Retriever) (disk : IndexDisk) (now : Q) (h : string) :
  _load_index r disk now h = (false, r') -> r' = r.
Proof.
  unfold _load_index.
  destruct (vector_path disk) as [vfile|]; [|now intros [= <-]].
  destruct (bm25_path disk) as [bfile|]; [|now intros [= <-]].
  destruct (Qltb 24 _); [now intros [= <-]|].
  destruct (st_content bfile) as [data|]; [|now intros [= <-]].
  destruct (negb _); [now intros [= <-]|].
  destruct (st_content vfile) as [vs|]; [|now intros [= <-]].
  destruct (build_retrievers_ok
              (set_index r (Some vs) (Some (pk_bm25 data)) (pk_documents data)
                 (pk_index_hash data)) vs eq_refl) as [r'' ->].
  discriminate.
Qed.

Lemma load_index_stale (r : Retriever) (disk : IndexDisk) (now : Q) (current_hash : string)
    (bfile : Stored PickleBundle) :
  bm25_path disk = Some bfile ->
  (24 < (now - st_mtime bfile) / 3600)%Q \/
  (exists data, st_content bfile = Some data /\ pk_index_hash data <> Some current_hash) ->
  _load_index r disk now current_hash = (false, r).
Proof.
  intros Hb Hstale. unfold _load_index. rewrite Hb.
  destruct (vector_path disk) as [vfile|]; [|reflexivity].
  destruct Hstale as [Hold|(data & Hdata & Hhash)].
  - apply Qltb_lt in Hold. now rewrite Hold.
  - destruct (Qltb 24 _); [reflexivity|].
    rewrite Hdata. now rewrite bool_decide_eq_false_2.
Qed.

(** C7: [_load_index] reports not-found, and leaves the retriever as it
    was, whenever the persisted file is older than 24 hours at load time
    or its stored fingerprint is not the current one. In particular, after
    a save under one configuration, a retriever whose configuration
    differs in [chunk_overlap] hashes different bytes, and with its
    different fingerprint the load reports not-found. *)
Theorem stale_index_is_not_loaded :
  (forall (r : Retriever) (disk : IndexDisk) (now : Q) (current_hash : string)
          (bfile : Stored PickleBundle),
      bm25_path disk = Some bfile ->
      (24 < (now - st_mtime bfile) / 3600)%Q \/
      (exists data, st_content bfile = Some data /\ pk_index_hash data <> Some current_hash) ->
      _load_index r disk now current_hash = (false, r)) /\
  (forall (fs : FileSystem) (saver loader : Retriever) (index : BM25Okapi)
          (disk : IndexDisk) (saved_at now : Q),
      bm25 saver = Some index ->
      index_hash saver = Some (_compute_version_hash fs saver) ->
      s3_version_hash loader = s3_version_hash saver ->
      document_paths loader = document_paths saver ->
      chunk_size loader = chunk_size saver ->
      chunk_overlap loader <> chunk_overlap saver ->
      version_hasher fs loader <> version_hasher fs saver /\
      (_compute_version_hash fs loader <> _compute_version_hash fs saver ->
       _load_index loader (_save_index saver disk saved_at) now
         (_compute_version_hash fs loader) = (false, loader))).
Proof.
  split; [exact load_index_stale|].
  intros fs saver loader index disk saved_at now Hindex Hhash Htag Hpaths Hsize Hoverlap.
  split.
  - intros Heq. rewrite !version_hasher_unfold, Htag, Hpaths in Heq.
    apply config_bytes_inj in Heq as [_ Heq]. contradiction.
  - intros Hdiff.
    eapply load_index_stale.
    + unfold _save_index. rewrite Hindex. reflexivity.
    + right. eexists. split; [reflexivity|].
      cbn [pk_index_hash]. rewrite Hhash. congruence.
Qed.

Lemma stale_index_is_not_loaded_witness :
  _load_index Sample.fresh Sample.saved (1000 + 25 * 3600)
    (_compute_version_hash Sample.cache_fs Sample.fresh) = (false, Sample.fresh) /\
  _load_index (set_config Sample.fresh 600 100 5 (6 # 10) (4 # 10))
    (_save_index Sample.ready Sample.no_disk 1000) 2000
    (_compute_version_hash Sample.cache_fs (set_config Sample.fresh 600 100 5 (6 # 10) (4 # 10)))
  = (false, set_config Sample.fresh 600 100 5 (6 # 10) (4 # 10)).
Proof.
  destruct stale_index_is_not_loaded as [Hstale Hoverlap]. split.
  - eapply (Hstale Sample.fresh Sample.saved); [reflexivity|].
    left. reflexivity.
  - eapply (Hoverlap Sample.cache_fs Sample.ready
              (set_config Sample.fresh 600 100 5 (6 # 10) (4 # 10))).
    + reflexivity.
    + vm_compute. reflexivity.
    + reflexivity.
    + reflexivity.
    + reflexivity.
    + discriminate.
    + vm_compute. discriminate.
Defined.

(** ** Building over an empty corpus *)

Section EmptyCorpus.

Variable set_iter : list string -> list string.
Variable ensemble_invoke : EnsembleRetriever -> string -> exc (list Document).
Variable docx_load : string -> exc (list Document).
Variable split_documents : Z -> Z -> list Document -> list Document.
Variable project_root : string.

Lemma load_master_document_none (fs : FileSystem) (r : Retriever) :
  _find_master_document project_root fs r = None ->
  _load_master_document docx_load project_root fs r = [].
Proof. intros H. unfold _load_master_document. now rewrite H. Qed.

(** C10, as amended: on a new retriever, when no master document is found
    and no persisted index is restored (a forced rebuild, or a load that
    reports not-found), [build_index] completes and leaves the retriever
    unbuilt; every later search returns the empty list and [_run] returns
    ["NO_ACTION_FOUND"], without raising. *)
Theorem empty_corpus_stays_unbuilt (cache_dir : option string)
    (document_paths : option (list string)) (s3_version_hash : option string)
    (fs : FileSystem) (disk : IndexDisk) (now : Q) (force_rebuild : bool) :
  let r := __init__ cache_dir document_paths s3_version_hash in
  _find_master_document project_root fs r = None ->
  force_rebuild = true \/
  (_load_index r disk now (_compute_version_hash fs r)).1 = false ->
  exists disk',
    build_index docx_load split_documents project_root r fs disk now force_rebuild
      = Ok (r, disk') /\
    vector_store r = None /\ ensemble_retriever r = None /\ documents r = [] /\
    (forall cache t query k,
        search set_iter ensemble_invoke r cache t query k = Ok ([], cache)) /\
    (forall threshold sources cache t query,
        _run set_iter ensemble_invoke threshold
             {| retriever := r; _last_sources := sources |} cache t query
        = (NO_ACTION_FOUND, {| retriever := r; _last_sources := [] |}, cache)).
Proof.
  intros r Hfind Hload.
  assert (exists disk',
    build_index docx_load split_documents project_root r fs disk now force_rebuild
      = Ok (r, disk')) as [disk' Hbuild].
  { unfold build_index. destruct force_rebuild.
    - rewrite load_master_document_none by assumption. eauto.
    - destruct Hload as [|Hload]; [discriminate|].
      destruct (_load_index r disk now (_compute_version_hash fs r)) as [loaded r'] eqn:Hl.
      cbn in Hload. subst loaded.
      apply load_index_false in Hl as ->.
      rewrite load_master_document_none by assumption. eauto. }
  exists disk'. repeat split; try reflexivity; assumption.
Qed.

End EmptyCorpus.

Lemma empty_corpus_stays_unbuilt_witness :
  exists disk',
    build_index Sample.docx_load Sample.split_documents Sample.project_root
      (__init__ (Some "/cache") None None) Sample.empty_fs Sample.saved 2000 true
      = Ok (__init__ (Some "/cache") None None, disk') /\
    vector_store (__init__ (Some "/cache") None None) = None /\
    ensemble_retriever (__init__ (Some "/cache") None None) = None /\
    documents (__init__ (Some "/cache") None None) = [] /\
    (forall cache t query k,
        search Sample.set_iter Sample.invoke_ok (__init__ (Some "/cache") None None)
          cache t query k = Ok ([], cache)) /\
    (forall threshold sources cache t query,
        _run Sample.set_iter Sample.invoke_ok threshold
             {| retriever := __init__ (Some "/cache") None None; _last_sources := sources |}
             cache t query
        = (NO_ACTION_FOUND,
           {| retriever := __init__ (Some "/cache") None None; _last_sources := [] |}, cache)).
Proof.
  apply (empty_corpus_stays_unbuilt Sample.set_iter Sample.invoke_ok Sample.docx_load
           Sample.split_documents Sample.project_root (Some "/cache") None None
           Sample.empty_fs Sample.saved 2000 true).
  - reflexivity.
  - left. reflexivity.
Defined.

(** C10, as stated, fails: with a fresh index of the same fingerprint on
    disk, a new retriever over a corpus that has become empty restores
    that index and answers from it. *)
Lemma empty_corpus_restores_persisted_index :
  let r := __init__ (Some "/cache") None None in
  _find_master_document Sample.project_root Sample.empty_fs r = None /\
  exists r' disk',
    build_index Sample.docx_load Sample.split_documents Sample.project_root
      r Sample.empty_fs Sample.saved 2000 false = Ok (r', disk') /\
    documents r' <> [] /\
    vector_store r' <> None /\
    ensemble_retriever r' <> None /\
    (_run Sample.set_iter Sample.invoke_ok (3 # 10)
          {| retriever := r'; _last_sources := [] |} empty_cache 2000 Sample.query).1.1
    <> NO_ACTION_FOUND.
Proof.
  cbv zeta. split; [reflexivity|].
  exists Sample.ready, Sample.saved. split; [vm_compute; reflexivity|].
  split; [discriminate|]. split; [discriminate|]. split; [discriminate|].
  vm_compute. discriminate.
Qed.

(** ** Substrings, case folding and stripping *)

Lemma append_cons (c : ascii) (a b : string) : String c a ++ b = String c (a ++ b).
Proof. reflexivity. Qed.

Lemma prefix_nil (s : string) : String.prefix "" s = true.
Proof. destruct s; reflexivity. Qed.

Lemma prefix_refl (s : string) : String.prefix s s = true.
Proof.
  induction s as [|c s IH]; cbn; [reflexivity|].
  destruct (ascii_dec c c); [exact IH | contradiction].
Qed.

Lemma prefix_app (n a b : string) :
  String.prefix n a = true -> String.prefix n (a ++ b) = true.
Proof.
  revert a. induction n as [|c n IH]; intros a; [intros _; apply prefix_nil|].
  destruct a as [|x a]; [discriminate|].
  rewrite append_cons. cbn. destruct (ascii_dec c x); [apply IH | discriminate].
Qed.

Lemma contains_cons (n : string) (c : ascii) (s : string) :
  Str.contains n (String c s) = String.prefix n (String c s) || Str.contains n s.
Proof. reflexivity. Qed.

Lemma contains_app_l (n a b : string) :
  Str.contains n a = true -> Str.contains n (a ++ b) = true.
Proof.
  induction a as [|c a IH].
  - destruct n; [|discriminate]. intros _. destruct b; reflexivity.
  - rewrite append_cons, !contains_cons.
    intros [H|H]%orb_true_iff; apply orb_true_iff.
    + left. rewrite <- append_cons. now apply prefix_app.
    + right. now apply IH.
Qed.

Lemma contains_app_r (n a b : string) :
  Str.contains n b = true -> Str.contains n (a ++ b) = true.
Proof.
  intros H. induction a as [|c a IH]; [exact H|].
  rewrite append_cons, contains_cons, IH. apply orb_true_r.
Qed.

Lemma contains_refl (s : string) : Str.contains s s = true.
Proof. destruct s; [reflexivity|]. now rewrite contains_cons, prefix_refl. Qed.

Lemma contains_join (s sep : string) (l : list string) :
  In s l -> Str.contains s (Str.join sep l) = true.
Proof.
  induction l as [|p rest IH]; [contradiction|].
  intros [->|Hin].
  - destruct rest; cbn [Str.join]; [apply contains_refl|].
    apply contains_app_l, contains_refl.
  - destruct rest as [|p' rest]; [contradiction|].
    change (Str.join sep (p :: p' :: rest)) with (p ++ sep ++ Str.join sep (p' :: rest)).
    now apply contains_app_r, contains_app_r, IH.
Qed.

Lemma contains_lstrip (n s : string) (c : ascii) (n' : string) :
  n = String c n' -> Str.is_space c = false ->
  Str.contains n s = true -> Str.contains n (Str.lstrip s) = true.
Proof.
  intros -> Hc. induction s as [|x s IH]; [trivial|].
  cbn [Str.lstrip]. destruct (Str.is_space x) eqn:Hx; [|trivial].
  rewrite contains_cons. intros [H|H]%orb_true_iff; [|now apply IH].
  cbn in H. destruct (ascii_dec c x); [congruence | discriminate].
Qed.

Lemma prefix_rstrip (n s : string) :
  all_chars (fun c => negb (Str.is_space c)) n = true ->
  String.prefix n s = true -> String.prefix n (Str.rstrip s) = true.
Proof.
  revert n. induction s as [|x s IH]; intros [|c n];
    try (intros; apply prefix_nil); try discriminate.
  cbn [all_chars]. intros [Hc Hn]%andb_true_iff.
  cbn [String.prefix]. destruct (ascii_dec c x) as [<-|]; [|discriminate].
  intros Hp. specialize (IH n Hn Hp). cbn [Str.rstrip].
  destruct (Str.rstrip s) as [|y r].
  - destruct n; [|discriminate].
    apply negb_true_iff in Hc. rewrite Hc. cbn.
    destruct (ascii_dec c c); [reflexivity | contradiction].
  - cbn [String.prefix]. destruct (ascii_dec c c); [exact IH | contradiction].
Qed.

Lemma contains_rstrip (n s : string) :
  n <> "" ->
  all_chars (fun c => negb (Str.is_space c)) n = true ->
  Str.contains n s = true -> Str.contains n (Str.rstrip s) = true.
Proof.
  intros Hne Hn. induction s as [|x s IH].
  - destruct n; [contradiction | discriminate].
  - rewrite contains_cons. intros [H|H]%orb_true_iff.
    + apply (prefix_rstrip _ _ Hn) in H.
      destruct (Str.rstrip (String x s)); [destruct n; [contradiction|discriminate]|].
      now rewrite contains_cons, H.
    + specialize (IH H). cbn [Str.rstrip].
      destruct (Str.rstrip s) as [|y r].
      * destruct n; [contradiction | discriminate].
      * rewrite contains_cons, IH. apply orb_true_r.
Qed.

Lemma is_space_lower (c : ascii) : Str.is_space (Str.lower_ascii c) = Str.is_space c.
Proof. destruct c as [[] [] [] [] [] [] [] []]; reflexivity. Qed.

Lemma lower_lstrip (s : string) : Str.lower (Str.lstrip s) = Str.lstrip (Str.lower s).
Proof.
  induction s as [|c s IH]; [reflexivity|].
  cbn [Str.lstrip Str.lower]. rewrite is_space_lower.
  destruct (Str.is_space c); [exact IH | reflexivity].
Qed.

Lemma lower_rstrip (s : string) : Str.lower (Str.rstrip s) = Str.rstrip (Str.lower s).
Proof.
  induction s as [|c s IH]; [reflexivity|].
  cbn [Str.rstrip Str.lower]. rewrite <- IH, is_space_lower.
  destruct (Str.rstrip s); cbn [Str.lower]; [|reflexivity].
  destruct (Str.is_space c); reflexivity.
Qed.

Lemma lower_strip (s : string) : Str.lower (Str.strip s) = Str.strip (Str.lower s).
Proof. unfold Str.strip. now rewrite lower_rstrip, lower_lstrip. Qed.

(** A word without spaces that occurs in the case-folded query occurs in
    the string the expansion keywords are looked up in. *)
Lemma contains_folded (n query : string) (c : ascii) (n' : string) :
  n = String c n' ->
  all_chars (fun c => negb (Str.is_space c)) n = true ->
  Str.contains n (Str.lower query) = true ->
  Str.contains n (Str.lower (Str.strip query)) = true.
Proof.
  intros Hn Hall H. rewrite lower_strip. unfold Str.strip.
  apply contains_rstrip; [subst; discriminate | exact Hall |].
  eapply contains_lstrip; [exact Hn | | exact H].
  subst. cbn [all_chars] in Hall.
  apply andb_true_iff in Hall as [Hc _]. now apply negb_true_iff in Hc.
Qed.

Lemma prefix_lower (n s : string) :
  String.prefix n s = true -> String.prefix (Str.lower n) (Str.lower s) = true.
Proof.
  revert s. induction n as [|c n IH]; intros [|x s]; try reflexivity; try discriminate.
  cbn [String.prefix Str.lower]. destruct (ascii_dec c x) as [<-|]; [|discriminate].
  destruct (ascii_dec _ _); [apply IH | contradiction].
Qed.

(** A word that occurs in the query occurs, case-folded, in the
    case-folded query. *)
Lemma contains_lower (n s : string) :
  Str.contains n s = true -> Str.contains (Str.lower n) (Str.lower s) = true.
Proof.
  induction s as [|x s IH].
  - destruct n; [reflexivity | discriminate].
  - rewrite contains_cons. change (Str.lower (String x s))
      with (String (Str.lower_ascii x) (Str.lower s)).
    rewrite contains_cons.
    intros [H|H]%orb_true_iff; apply orb_true_iff.
    + left. exact (prefix_lower _ _ H).
    + right. now apply IH.
Qed.

(** ** Query expansion *)

Lemma expansions_fold (q : string) (l : list (string * list string)) (acc : list string) :
  List.fold_left
    (fun expansions '(keyword, synonyms) =>
       if Str.contains keyword q then (expansions ++ synonyms)%list else expansions)
    l acc
  = (acc ++ List.concat
       (List.map snd (List.filter (fun '(keyword, _) => Str.contains keyword q) l)))%list.
Proof.
  revert acc. induction l as [|[keyword synonyms] l IH]; intros acc; cbn.
  - now rewrite app_nil_r.
  - rewrite IH. destruct (Str.contains keyword q); cbn; [|reflexivity].
    now rewrite <- app_assoc.
Qed.

Lemma in_expansions (q s : string) :
  In s (List.concat
          (List.map snd
             (List.filter (fun '(keyword, _) => Str.contains keyword q) action_expansions)))
  <-> exists keyword synonyms,
        In (keyword, synonyms) action_expansions /\
        Str.contains keyword q = true /\ In s synonyms.
Proof.
  rewrite in_concat. split.
  - intros (synonyms & Hin & Hs).
    apply in_map_iff in Hin as ([keyword synonyms'] & <- & Hin).
    apply filter_In in Hin as [Hin Hq]. eauto.
  - intros (keyword & synonyms & Hin & Hq & Hs).
    exists synonyms. split; [|exact Hs].
    apply in_map_iff. exists (keyword, synonyms). split; [reflexivity|].
    apply filter_In. now split.
Qed.

Section Expansion.

Variable set_iter : list string -> list string.

(** A set holds each added element once. *)
Hypothesis set_iter_spec :
  forall l, NoDup (set_iter l) /\ forall x, In x (set_iter l) <-> In x l.

(** C9: the expanded query is the query itself, or the query followed
    by a space and the space-separated synonyms, which are, without
    duplicates, the synonyms of the keywords that occur in the stripped,
    case-folded query; the query is a prefix of its expansion; and a query
    in which "apply" and "leave" occur expands to a string in which
    "request" and "submit" occur. *)
Theorem expansion_is_additive (query : string) :
  exists synonyms,
    NoDup synonyms /\
    (forall s, In s synonyms <->
       exists keyword keyword_synonyms,
         In (keyword, keyword_synonyms) action_expansions /\
         Str.contains keyword (Str.lower (Str.strip query)) = true /\
         In s keyword_synonyms) /\
    _expand_query set_iter query
      = match synonyms with
        | [] => query
        | _ :: _ => query ++ " " ++ Str.join " " synonyms
        end /\
    String.prefix query (_expand_query set_iter query) = true /\
    (Str.contains "apply" (Str.lower query) = true ->
     Str.contains "leave" (Str.lower query) = true ->
     Str.contains "request" (_expand_query set_iter query) = true /\
     Str.contains "submit" (_expand_query set_iter query) = true).
Proof.
  set (q := Str.lower (Str.strip query)).
  set (expansions :=
         List.concat
           (List.map snd
              (List.filter (fun '(keyword, _) => Str.contains keyword q) action_expansions))).
  assert (_expand_query set_iter query
          = match expansions with
            | [] => query
            | _ :: _ => query ++ " " ++ Str.join " " (set_iter expansions)
            end) as Hexp.
  { unfold _expand_query. fold q. now rewrite expansions_fold. }
  destruct (set_iter_spec expansions) as [Hnodup Hin].
  assert (_expand_query set_iter query
          = match set_iter expansions with
            | [] => query
            | _ :: _ => query ++ " " ++ Str.join " " (set_iter expansions)
            end) as Hexp'.
  { rewrite Hexp. clear Hexp Hnodup. revert Hin. generalize expansions as l.
    intros [|e es] Hin.
    - destruct (set_iter []) as [|x xs] eqn:Hs; [reflexivity|].
      exfalso. apply (Hin x). now left.
    - destruct (set_iter (e :: es)) as [|x xs] eqn:Hs; [|reflexivity].
      exfalso. apply (Hin e). now left. }
  exists (set_iter expansions). split; [exact Hnodup|].
  split; [intros s; rewrite Hin; apply in_expansions|].
  split; [exact Hexp'|]. split.
  - rewrite Hexp'. destruct (set_iter expansions); [apply prefix_refl|].
    apply prefix_app, prefix_refl.
  - intros Happly _.
    assert (Str.contains "apply" q = true) as Hq
      by (eapply contains_folded; [reflexivity | reflexivity | exact Happly]).
    assert (forall s, In s ["request"; "submit"; "file"] -> In s (set_iter expansions)) as Hsyn.
    { intros s Hs. apply Hin, in_expansions.
      exists "apply", ["request"; "submit"; "file"].
      split; [now left|]. now split. }
    assert (forall s, In s ["request"; "submit"; "file"] ->
                      Str.contains s (_expand_query set_iter query) = true) as Hfound.
    { intros s Hs. rewrite Hexp'.
      destruct (set_iter expansions) as [|x xs] eqn:Hset.
      - destruct (Hsyn s Hs).
      - apply contains_app_r, contains_app_r, contains_join.
        exact (Hsyn s Hs). }
    split; apply Hfound; [now left | right; now left].
Qed.

End Expansion.

Lemma remove_dups_is_set (l : list string) :
  NoDup (remove_dups l) /\ forall x, In x (remove_dups l) <-> In x l.
Proof.
  split; [apply NoDup_remove_dups|].
  intros x. rewrite <- !list_elem_of_In. apply elem_of_remove_dups.
Qed.

Lemma expansion_is_additive_witness :
  exists synonyms,
    NoDup synonyms /\
    (forall s, In s synonyms <->
       exists keyword keyword_synonyms,
         In (keyword, keyword_synonyms) action_expansions /\
         Str.contains keyword (Str.lower (Str.strip "How do I APPLY for Leave?")) = true /\
         In s keyword_synonyms) /\
    _expand_query Sample.set_iter "How do I APPLY for Leave?"
      = match synonyms with
        | [] => "How do I APPLY for Leave?"
        | _ :: _ => "How do I APPLY for Leave?" ++ " " ++ Str.join " " synonyms
        end /\
    String.prefix "How do I APPLY for Leave?"
      (_expand_query Sample.set_iter "How do I APPLY for Leave?") = true /\
    (Str.contains "apply" (Str.lower "How do I APPLY for Leave?") = true ->
     Str.contains "leave" (Str.lower "How do I APPLY for Leave?") = true ->
     Str.contains "request" (_expand_query Sample.set_iter "How do I APPLY for Leave?") = true /\
     Str.contains "submit" (_expand_query Sample.set_iter "How do I APPLY for Leave?") = true).
Proof.
  apply (expansion_is_additive Sample.set_iter remove_dups_is_set "How do I APPLY for Leave?").
Defined.

Example expansion_example :
  _expand_query Sample.set_iter "how do I apply for leave"
  = "how do I apply for leave request submit file vacation time off absence pto".
Proof. vm_compute. reflexivity. Qed.

(** ** The ensemble configuration *)

(** C5, as stated with [k] the configured [top_k], fails: with
    [top_k = 3] each retriever is asked for 10 candidates, not 6. *)
Lemma small_top_k_asks_for_ten :
  let r := set_config Sample.ready 600 150 3 (6 # 10) (4 # 10) in
  exists r' sparse dense,
    _build_retrievers r = Ok r' /\
    bm25_retriever r' = Some sparse /\ faiss_retriever r' = Some dense /\
    bmr_k sparse = 10 /\ vsr_k dense = 10 /\
    bmr_k sparse <> 2 * top_k r /\ vsr_k dense <> 2 * top_k r.
Proof.
  cbv zeta. eexists _, _, _.
  split; [reflexivity|]. split; [reflexivity|]. split; [reflexivity|].
  repeat split; discriminate.
Qed.

(** C5, as amended: [_build_retrievers] asks the sparse and the dense
    retriever for [2 * max(top_k, 5)] candidates each (that is [2 * top_k]
    from [top_k = 5] on, 10 under the default), and hands the ensemble the
    weights [bm25_weight] and [vector_weight], [0.6] and [0.4] by default,
    in the order sparse, dense; under the fusion rule of the
    specification the fused score of a chunk is then
    [bm25_weight / (sparse_rank + 1) + vector_weight / (dense_rank + 1)],
    a list the chunk is absent from contributing zero. *)
Theorem ensemble_configuration (r : Retriever) (vs : VectorStore) :
  vector_store r = Some vs ->
  documents r <> [] ->
  exists sparse dense ensemble,
    _build_retrievers r = Ok (set_retrievers r dense sparse ensemble) /\
    bmr_k sparse = 2 * Z.max (top_k r) 5 /\
    vsr_k dense = 2 * Z.max (top_k r) 5 /\
    (5 <= top_k r -> bmr_k sparse = 2 * top_k r /\ vsr_k dense = 2 * top_k r) /\
    retrievers ensemble = [Sparse sparse; Dense dense] /\
    weights ensemble = [bm25_weight r; vector_weight r] /\
    (forall cache_dir paths tag,
        bm25_weight (__init__ cache_dir paths tag) = (6 # 10)%Q /\
        vector_weight (__init__ cache_dir paths tag) = (4 # 10)%Q /\
        2 * Z.max (top_k (__init__ cache_dir paths tag)) 5 = 10) /\
    (forall (sparse_ranked dense_ranked : list Document) (chunk : Document),
        let fused := fused_score (weights ensemble) [sparse_ranked; dense_ranked] chunk in
        match rank_of chunk sparse_ranked, rank_of chunk dense_ranked with
        | Some sparse_rank, Some dense_rank =>
            (fused == bm25_weight r / inject_Z (Z.of_nat sparse_rank + 1)
                      + vector_weight r / inject_Z (Z.of_nat dense_rank + 1))%Q
        | Some sparse_rank, None =>
            (fused == bm25_weight r / inject_Z (Z.of_nat sparse_rank + 1))%Q
        | None, Some dense_rank =>
            (fused == vector_weight r / inject_Z (Z.of_nat dense_rank + 1))%Q
        | None, None => (fused == 0)%Q
        end).
Proof.
  intros Hvs Hdocs. unfold _build_retrievers. rewrite Hvs.
  destruct (documents r) as [|d ds] eqn:Hd; [contradiction|].
  eexists _, _, _. split; [reflexivity|].
  cbn [bmr_k vsr_k retrievers weights].
  split; [lia|]. split; [lia|]. split; [lia|].
  split; [reflexivity|]. split; [reflexivity|].
  split; [intros; repeat split|].
  intros sparse_ranked dense_ranked chunk. cbn [fused_score].
  destruct (rank_of chunk sparse_ranked), (rank_of chunk dense_ranked);
    cbn [rank_share]; ring.
Qed.

Lemma ensemble_configuration_witness :
  exists sparse dense ensemble,
    _build_retrievers Sample.ready = Ok (set_retrievers Sample.ready dense sparse ensemble) /\
    bmr_k sparse = 10 /\ vsr_k dense = 10 /\
    (fused_score (weights ensemble) [[Sample.note; Sample.guide]; [Sample.guide]] Sample.guide
     == (6 # 10) / 2 + (4 # 10) / 1)%Q /\
    (fused_score (weights ensemble) [[Sample.note; Sample.guide]; [Sample.guide]] Sample.note
     == (6 # 10) / 1)%Q.
Proof.
  destruct (ensemble_configuration Sample.ready (mkVectorStore (documents Sample.ready)))
    as (sparse & dense & ensemble & Hbuild & Hsparse & Hdense & _ & _ & _ & _ & Hfused).
  - reflexivity.
  - discriminate.
  - exists sparse, dense, ensemble.
    split; [exact Hbuild|]. split; [exact Hsparse|]. split; [exact Hdense|].
    split.
    + exact (Hfused [Sample.note; Sample.guide] [Sample.guide] Sample.guide).
    + exact (Hfused [Sample.note; Sample.guide] [Sample.guide] Sample.note).
Defined.

(** * Further properties *)

(** ** Chunk identifiers *)

Lemma chunk_ids_from (n : nat) (l : list Document) :
  List.map meta_chunk_id (imap (fun i => set_chunk_id (n + i)) l)
  = List.map (fun i => Some (Z.of_nat i)) (seq n (List.length l)).
Proof.
  revert n. induction l as [|d l IH]; intros n; [reflexivity|].
  rewrite imap_cons. cbn [List.map List.length seq meta_chunk_id set_chunk_id].
  rewrite Nat.add_0_r. f_equal.
  rewrite <- IH. f_equal. apply imap_ext. intros i x _. cbn.
  f_equal. lia.
Qed.

Lemma chunk_contents (f : nat -> Document -> Document) (l : list Document) :
  (forall i d, page_content (f i d) = page_content d) ->
  List.map page_content (imap f l) = List.map page_content l.
Proof.
  revert f. induction l as [|d l IH]; intros f Hf; [reflexivity|].
  rewrite imap_cons. cbn [List.map]. rewrite Hf. f_equal.
  apply IH. intros i x. apply Hf.
Qed.

(** X1: the chunks of [_chunk_documents] carry the identifiers
    0, 1, ..., n-1 in order, and are otherwise the chunks the splitter
    returned. *)
Theorem chunk_ids_are_dense (split_documents : Z -> Z -> list Document -> list Document)
    (r : Retriever) (docs : list Document) :
  let pieces := split_documents (chunk_size r) (chunk_overlap r) docs in
  let chunks := _chunk_documents split_documents r docs in
  List.length chunks = List.length pieces /\
  List.map meta_chunk_id chunks
  = List.map (fun i => Some (Z.of_nat i)) (seq 0 (List.length pieces)) /\
  List.map page_content chunks = List.map page_content pieces /\
  List.map meta_source chunks = List.map meta_source pieces.
Proof.
  cbv zeta. unfold _chunk_documents.
  set (pieces := split_documents _ _ _).
  split; [apply length_imap|]. split.
  - exact (chunk_ids_from 0 pieces).
  - split; [now apply chunk_contents|].
    generalize set_chunk_id, (fun i d => eq_refl : meta_source (set_chunk_id i d) = meta_source d).
    induction pieces as [|d l IH]; intros f Hf; [reflexivity|].
    rewrite imap_cons. cbn [List.map]. rewrite Hf. f_equal.
    apply IH. intros i x. apply Hf.
Qed.

(** ** Scores and query tokens *)

Lemma keyword_hits_le (tokens : gset string) (text : string) :
  (keyword_hits tokens text <= size tokens)%nat.
Proof.
  unfold keyword_hits, size, set_size. cbn.
  induction (elements tokens) as [|t l IH]; cbn; [lia|].
  destruct (Str.contains t text); cbn; lia.
Qed.

(** X2: the score of the candidate at rank [r] lies between the positional
    score [1/(r+1)] and that score plus [0.1] per distinct query token plus
    [0.2]; in particular it is positive. *)
Theorem score_bounds (query : string) (docs : list Document) (r : nat)
    (res : ActionSearchResult) :
  score_docs query docs !! r = Some res ->
  (0 < 1 / inject_Z (Z.of_nat r + 1))%Q /\
  (1 / inject_Z (Z.of_nat r + 1) <= score res)%Q /\
  (score res <= 1 / inject_Z (Z.of_nat r + 1)
                + (1 # 10) * inject_Z (Z.of_nat (size (query_tokens query))) + (2 # 10))%Q.
Proof.
  rewrite score_docs_lookup. destruct (docs !! r) as [doc|]; [|discriminate].
  intros [= <-]. cbn [score_doc score].
  set (base := (1 / inject_Z (Z.of_nat r + 1))%Q).
  set (hits := keyword_hits _ _).
  pose proof (keyword_hits_le (query_tokens query)
                (Str.lower (page_content doc))) as Hle. fold hits in Hle.
  assert (0 < base)%Q as Hbase.
  { unfold base. apply Qlt_shift_div_l; [unfold Qlt; cbn; lia|].
    rewrite Qmult_0_l. reflexivity. }
  assert (0 <= inject_Z (Z.of_nat hits))%Q as H0 by (unfold Qle; cbn; lia).
  assert (inject_Z (Z.of_nat hits) <= inject_Z (Z.of_nat (size (query_tokens query))))%Q
    as H1 by (unfold Qle; cbn; lia).
  split; [exact Hbase|].
  destruct (Str.contains_any _ _); split; lra.
Qed.

Lemma score_bounds_witness :
  (0 < 1 / inject_Z (Z.of_nat 1 + 1))%Q /\
  (1 / inject_Z (Z.of_nat 1 + 1) <= 180 # 200)%Q /\
  (180 # 200 <= 1 / inject_Z (Z.of_nat 1 + 1)
                + (1 # 10) * inject_Z (Z.of_nat (size (query_tokens Sample.query))) + (2 # 10))%Q.
Proof.
  apply (score_bounds Sample.query [Sample.note; Sample.guide] 1
           (score_doc (query_tokens Sample.query) 1 Sample.guide)).
  reflexivity.
Defined.

Lemma is_upper_lower (c : ascii) : Str.is_upper (Str.lower_ascii c) = false.
Proof. destruct c as [[] [] [] [] [] [] [] []]; reflexivity. Qed.

Lemma lower_no_upper (s : string) :
  all_chars (fun c => negb (Str.is_upper c)) (Str.lower s) = true.
Proof.
  induction s as [|c s IH]; [reflexivity|].
  cbn [Str.lower all_chars]. now rewrite is_upper_lower, IH.
Qed.

Lemma prefix_all_chars (p : ascii -> bool) (w s : string) :
  String.prefix w s = true -> all_chars p s = true -> all_chars p w = true.
Proof.
  revert s. induction w as [|c w IH]; intros [|x s]; try reflexivity; try discriminate.
  cbn [String.prefix all_chars]. destruct (ascii_dec c x) as [<-|]; [|discriminate].
  intros Hp [Hc Hs]%andb_true_iff. now rewrite Hc, (IH s).
Qed.

Lemma contains_all_chars (p : ascii -> bool) (w s : string) :
  Str.contains w s = true -> all_chars p s = true -> all_chars p w = true.
Proof.
  induction s as [|x s IH].
  - destruct w; [reflexivity | discriminate].
  - rewrite contains_cons. intros [H|H]%orb_true_iff Hs.
    + exact (prefix_all_chars p _ _ H Hs).
    + apply IH; [exact H|]. cbn in Hs. now apply andb_true_iff in Hs.
Qed.

(** The runs found by the scan: the run at the head is a non-empty
    prefix, and every run is non-empty, made of characters that satisfy
    [p], and a substring of the text. *)
Lemma runs_spec (p : ascii -> bool) (s : string) :
  (forall w, (Str.runs p s).1 = Some w ->
             w <> "" /\ all_chars p w = true /\ String.prefix w s = true) /\
  (forall w, In w (Str.runs p s).2 ->
             w <> "" /\ all_chars p w = true /\ Str.contains w s = true).
Proof.
  induction s as [|c s [IHcur IHlater]]; [split; [discriminate | contradiction]|].
  cbn [Str.runs]. destruct (Str.runs p s) as [cur later] eqn:Hruns. cbn [fst snd] in *.
  assert (forall w, In w later ->
            w <> "" /\ all_chars p w = true /\ Str.contains w (String c s) = true) as Hlater.
  { intros w Hw. destruct (IHlater w Hw) as (H1 & H2 & H3).
    repeat split; try assumption. rewrite contains_cons, H3. apply orb_true_r. }
  destruct (p c) eqn:Hc; cbn [fst snd].
  - split; [|exact Hlater].
    intros w [= <-]. split; [discriminate|].
    destruct cur as [w'|]; cbn [default from_option id all_chars String.prefix].
    + destruct (IHcur w' eq_refl) as (_ & H2 & H3).
      rewrite Hc, H2. split; [reflexivity|].
      destruct (ascii_dec c c); [exact H3 | contradiction].
    + rewrite Hc. split; [reflexivity|].
      destruct (ascii_dec c c); [apply prefix_nil | contradiction].
  - split; [discriminate|].
    destruct cur as [w'|]; [|exact Hlater].
    intros w [<-|Hw]; [|now apply Hlater].
    destruct (IHcur w' eq_refl) as (H1 & H2 & H3).
    repeat split; try assumption.
    rewrite contains_cons. apply orb_true_iff. right.
    destruct s as [|x s']; [destruct w'; [contradiction | discriminate]|].
    rewrite contains_cons, H3. reflexivity.
Qed.

Lemma all_runs_spec (p : ascii -> bool) (s w : string) :
  In w (Str.all_runs p s) ->
  w <> "" /\ all_chars p w = true /\ Str.contains w s = true.
Proof.
  unfold Str.all_runs. destruct (runs_spec p s) as [Hcur Hlater].
  destruct (Str.runs p s) as [[w'|] later]; cbn [fst snd] in *; [|apply Hlater].
  intros [<-|Hw]; [|now apply Hlater].
  destruct (Hcur w' eq_refl) as (H1 & H2 & H3). repeat split; try assumption.
  destruct s as [|x s']; [destruct w'; [contradiction | discriminate]|].
  rewrite contains_cons, H3. reflexivity.
Qed.

(** X3: every query token is a non-empty run of word characters without
    upper-case letters, occurs in the case-folded query, and is no stop
    word. *)
Theorem query_tokens_are_words (query token : string) :
  token ∈ query_tokens query ->
  token <> "" /\
  all_chars Str.is_word token = true /\
  all_chars (fun c => negb (Str.is_upper c)) token = true /\
  Str.contains token (Str.lower query) = true /\
  token ∉ stop_words.
Proof.
  unfold query_tokens. rewrite elem_of_difference, elem_of_list_to_set.
  intros [Hin Hstop]. apply list_elem_of_In in Hin.
  destruct (all_runs_spec _ _ _ Hin) as (H1 & H2 & H3).
  repeat split; try assumption.
  exact (contains_all_chars _ _ _ H3 (lower_no_upper query)).
Qed.

Lemma query_tokens_are_words_witness :
  "apply" <> "" /\
  all_chars Str.is_word "apply" = true /\
  all_chars (fun c => negb (Str.is_upper c)) "apply" = true /\
  Str.contains "apply" (Str.lower "How do I APPLY for leave?") = true /\
  "apply" ∉ stop_words.
Proof.
  apply (query_tokens_are_words "How do I APPLY for leave?" "apply").
  vm_compute. reflexivity.
Defined.

(** ** The order of the results *)

Lemma insert_desc_sorted (x : ActionSearchResult) (l : list ActionSearchResult) :
  StronglySorted by_score_desc l -> StronglySorted by_score_desc (insert_desc x l).
Proof.
  induction 1 as [|y l Hl IH Hy]; cbn [insert_desc].
  - repeat constructor.
  - destruct (Qltb (score x) (score y)) eqn:E.
    + apply Qltb_lt in E. constructor; [exact IH|].
      eapply Permutation_Forall; [symmetry; apply insert_desc_perm|].
      constructor; [apply Qlt_le_weak, E | exact Hy].
    + apply Qltb_ge in E. constructor; [now constructor|].
      constructor; [exact E|].
      eapply Forall_impl; [exact Hy|]. intros z Hz. unfold by_score_desc in *.
      eapply Qle_trans; eauto.
Qed.

Lemma sort_desc_sorted (l : list ActionSearchResult) :
  StronglySorted by_score_desc (sort_desc l).
Proof.
  induction l as [|x l IH]; cbn [sort_desc List.fold_right]; [constructor|].
  now apply insert_desc_sorted.
Qed.

Lemma insert_desc_filter (s : Q) (x : ActionSearchResult) (l : list ActionSearchResult) :
  List.filter (fun res => Qeq_bool (score res) s) (insert_desc x l)
  = List.filter (fun res => Qeq_bool (score res) s) (x :: l).
Proof.
  induction l as [|y l IH]; [reflexivity|].
  cbn [insert_desc]. destruct (Qltb (score x) (score y)) eqn:E; [|reflexivity].
  apply Qltb_lt in E. cbn [List.filter] in *. rewrite IH.
  destruct (Qeq_bool (score x) s) eqn:Ex; [|reflexivity].
  destruct (Qeq_bool (score y) s) eqn:Ey; [|reflexivity].
  apply Qeq_bool_iff in Ex, Ey. rewrite Ex, Ey in E.
  now apply Qlt_irrefl in E.
Qed.

(** X4: the sort of the scored candidates rearranges them, puts larger
    scores first, and keeps candidates of equal score in the order of the
    retriever. *)
Theorem sort_desc_is_stable (l : list ActionSearchResult) :
  Permutation (sort_desc l) l /\
  StronglySorted by_score_desc (sort_desc l) /\
  forall s,
    List.filter (fun res => Qeq_bool (score res) s) (sort_desc l)
    = List.filter (fun res => Qeq_bool (score res) s) l.
Proof.
  split; [apply sort_desc_perm|]. split; [apply sort_desc_sorted|].
  intros s. induction l as [|x l IH]; [reflexivity|].
  cbn [sort_desc List.fold_right]. rewrite insert_desc_filter.
  cbn [List.filter]. fold (sort_desc l). now rewrite IH.
Qed.

Lemma In_firstn_In {A} (n : nat) (l : list A) (x : A) : In x (firstn n l) -> In x l.
Proof.
  revert n. induction l as [|y l IH]; intros [|n]; cbn; try contradiction.
  intros [->|H]; [now left | right; eauto].
Qed.

Lemma firstn_sorted {A} (R : A -> A -> Prop) (n : nat) (l : list A) :
  StronglySorted R l -> StronglySorted R (firstn n l).
Proof.
  revert n. induction l as [|x l IH]; intros [|n] Hs; cbn; try constructor.
  - apply IH. now inversion Hs.
  - inversion Hs as [|? ? _ Hall]; subst.
    rewrite Forall_forall in *. intros y Hy. apply Hall.
    apply list_elem_of_In in Hy. apply list_elem_of_In. eapply In_firstn_In; eauto.
Qed.

Lemma slice_to_firstn {A} (k : Z) (l : list A) : exists n, slice_to k l = firstn n l.
Proof. unfold slice_to. destruct (0 <=? k)%Z; eauto. Qed.

(** ** Searching over the cache *)

Lemma cache_miss_no_fault (cache : Cache) (now : Q) (key : string) :
  cache_miss cache now key -> cache_fault cache = None.
Proof.
  unfold cache_miss, cache_get. destruct (cache_fault cache); [|reflexivity].
  intros [H|H]; discriminate.
Qed.

(** What [search] does on a built retriever when the cache gives nothing. *)
Lemma search_on_miss (set_iter : list string -> list string)
    (invoke : EnsembleRetriever -> string -> exc (list Document))
    (r : Retriever) (cache : Cache) (now : Q) (query : string) (k : option Z)
    (vs : VectorStore) (e : EnsembleRetriever) :
  vector_store r = Some vs ->
  ensemble_retriever r = Some e ->
  documents r <> [] ->
  cache_miss cache now (cache_key r (_expand_query set_iter query) (top_k_or k (top_k r))) ->
  search set_iter invoke r cache now query k
  = match invoke e (_expand_query set_iter query) with
    | Ok (d :: ds) =>
        let results :=
          slice_to (top_k_or k (top_k r)) (sort_desc (score_docs query (d :: ds))) in
        Ok (results,
            {| cache_entries :=
                 <[cache_key r (_expand_query set_iter query) (top_k_or k (top_k r))
                   := {| ce_value := results; ce_expire_time := now + 3600 |}]>
                   (cache_entries cache);
               cache_fault := None |})
    | _ => Ok ([], cache)
    end.
Proof.
  intros Hvs He Hdocs Hmiss. unfold search. rewrite Hvs, He.
  destruct (documents r) as [|d0 ds0]; [contradiction|].
  pose proof (cache_miss_no_fault _ _ _ Hmiss) as Hfault.
  destruct Hmiss as [-> | ->]; cbn [exc_bind];
    (destruct (invoke e _) as [[|d ds]|msg]; [reflexivity| |reflexivity]);
    unfold cache_set; rewrite Hfault; reflexivity.
Qed.

(** X5: on a built retriever whose cache gives nothing, the documents of
    the ensemble retriever come back scored, larger scores first, each
    result being the scoring of one retrieved document at its rank; for a
    positive [top_k] there are at most [top_k] results and at least one. *)
Theorem computed_results_are_ranked (set_iter : list string -> list string)
    (invoke : EnsembleRetriever -> string -> exc (list Document))
    (r : Retriever) (cache : Cache) (now : Q) (query : string) (k : option Z)
    (vs : VectorStore) (e : EnsembleRetriever) (docs : list Document) :
  vector_store r = Some vs ->
  ensemble_retriever r = Some e ->
  documents r <> [] ->
  cache_miss cache now (cache_key r (_expand_query set_iter query) (top_k_or k (top_k r))) ->
  invoke e (_expand_query set_iter query) = Ok docs ->
  docs <> [] ->
  exists results cache',
    search set_iter invoke r cache now query k = Ok (results, cache') /\
    StronglySorted by_score_desc results /\
    (forall res, In res results ->
       exists rank doc,
         docs !! rank = Some doc /\ res = score_doc (query_tokens query) rank doc) /\
    (List.length results <= List.length docs)%nat /\
    (0 < top_k_or k (top_k r) ->
     results <> [] /\ (Z.of_nat (List.length results) <= top_k_or k (top_k r))).
Proof.
  intros Hvs He Hdocs Hmiss Hinv Hne.
  rewrite (search_on_miss _ _ _ _ _ _ _ vs e Hvs He Hdocs Hmiss), Hinv.
  destruct docs as [|d ds]; [contradiction|]. cbv zeta.
  eexists _, _. split; [reflexivity|].
  set (k' := top_k_or k (top_k r)).
  set (sorted_all := sort_desc (score_docs query (d :: ds))).
  assert (List.length sorted_all = List.length (d :: ds)) as Hlen.
  { unfold sorted_all. rewrite (Permutation_length (sort_desc_perm _)).
    unfold score_docs. apply length_imap. }
  destruct (slice_to_firstn k' sorted_all) as [n Hn].
  split; [rewrite Hn; apply firstn_sorted, sort_desc_sorted|].
  split.
  - intros res Hres. rewrite Hn in Hres. apply In_firstn_In in Hres.
    eapply Permutation_in in Hres; [|apply sort_desc_perm].
    apply list_elem_of_In, list_elem_of_lookup in Hres as [rank Hrank].
    rewrite score_docs_lookup in Hrank.
    destruct ((d :: ds) !! rank) as [doc|] eqn:Hdoc; [|discriminate].
    injection Hrank as <-. eauto.
  - split.
    + rewrite Hn, length_firstn, Hlen. lia.
    + intros Hpos. unfold slice_to.
      destruct (0 <=? k')%Z eqn:Hk; [|apply Z.leb_gt in Hk; lia].
      rewrite length_firstn. split; [|lia].
      destruct sorted_all as [|x xs]; [discriminate|].
      destruct (Z.to_nat k') eqn:Hz; [lia | discriminate].
Qed.

Lemma computed_results_are_ranked_witness :
  exists results cache',
    search Sample.set_iter Sample.invoke_ok Sample.ready empty_cache 0 Sample.query (Some 1%Z)
      = Ok (results, cache') /\
    StronglySorted by_score_desc results /\
    (forall res, In res results ->
       exists rank doc,
         [Sample.note; Sample.guide] !! rank = Some doc /\
         res = score_doc (query_tokens Sample.query) rank doc) /\
    (List.length results <= 2)%nat /\
    (0 < 1 -> results <> [] /\ (Z.of_nat (List.length results) <= 1)).
Proof.
  apply (computed_results_are_ranked Sample.set_iter Sample.invoke_ok Sample.ready
           empty_cache 0 Sample.query (Some 1%Z)
           (mkVectorStore (documents Sample.ready))
           (mkEnsemble
              [Sparse (mkBMR (documents Sample.ready) 10);
               Dense (mkVSR (mkVectorStore (documents Sample.ready)) 10)]
              [6 # 10; 4 # 10]%Q)
           [Sample.note; Sample.guide]).
  - reflexivity.
  - reflexivity.
  - discriminate.
  - left. reflexivity.
  - reflexivity.
  - discriminate.
Defined.

(** X6: once a search has computed and stored a populated result list,
    the same search within the next 3600 seconds returns that list from
    the cache and leaves the cache as it is, whatever the ensemble
    retriever would answer by then. *)
Theorem repeated_search_hits_cache (set_iter : list string -> list string)
    (invoke invoke' : EnsembleRetriever -> string -> exc (list Document))
    (r : Retriever) (cache cache' : Cache) (now now' : Q) (query : string) (k : option Z)
    (results : list ActionSearchResult) :
  cache_miss cache now (cache_key r (_expand_query set_iter query) (top_k_or k (top_k r))) ->
  search set_iter invoke r cache now query k = Ok (results, cache') ->
  results <> [] ->
  (now' < now + 3600)%Q ->
  search set_iter invoke' r cache' now' query k = Ok (results, cache').
Proof.
  intros Hmiss Hsearch Hne Hnow.
  destruct (vector_store r) as [vs|] eqn:Hvs;
    [|unfold search in Hsearch; rewrite Hvs in Hsearch; now injection Hsearch as <-].
  destruct (ensemble_retriever r) as [e|] eqn:He;
    [|unfold search in Hsearch; rewrite Hvs, He in Hsearch; now injection Hsearch as <-].
  destruct (documents r) as [|d0 ds0] eqn:Hdocs;
    [unfold search in Hsearch; rewrite Hvs, He, Hdocs in Hsearch; now injection Hsearch as <-|].
  assert (documents r <> []) as Hd by (rewrite Hdocs; discriminate).
  rewrite (search_on_miss _ _ _ _ _ _ _ vs e Hvs He Hd Hmiss) in Hsearch.
  destruct (invoke e _) as [[|d ds]|msg]; try (now injection Hsearch as <-).
  cbv zeta in Hsearch. injection Hsearch as Hres <-.
  unfold search. rewrite Hvs, He, Hdocs. unfold cache_get. cbn [cache_fault cache_entries].
  rewrite lookup_insert_eq. cbn [ce_expire_time ce_value].
  apply Qltb_lt in Hnow. rewrite Hnow, Hres. cbn [exc_bind].
  destruct results; [contradiction | reflexivity].
Qed.

Lemma repeated_search_hits_cache_witness :
  search Sample.set_iter Sample.invoke_fails Sample.ready Sample.found.2 3599 Sample.query
    (Some 5%Z)
  = Ok (Sample.found.1, Sample.found.2).
Proof.
  apply (repeated_search_hits_cache Sample.set_iter Sample.invoke_ok Sample.invoke_fails
           Sample.ready empty_cache Sample.found.2 0 3599 Sample.query (Some 5%Z)
           Sample.found.1).
  - left. reflexivity.
  - reflexivity.
  - discriminate.
  - reflexivity.
Defined.

(** X7: 3600 seconds after a search has stored its result list the entry
    is no longer served: the lookup gives nothing, and a search whose
    ensemble retriever fails by then returns the empty list. *)
Theorem cached_results_expire (set_iter : list string -> list string)
    (invoke invoke' : EnsembleRetriever -> string -> exc (list Document))
    (r : Retriever) (cache cache' : Cache) (now now' : Q) (query : string) (k : option Z)
    (results : list ActionSearchResult) :
  cache_miss cache now (cache_key r (_expand_query set_iter query) (top_k_or k (top_k r))) ->
  search set_iter invoke r cache now query k = Ok (results, cache') ->
  results <> [] ->
  (now + 3600 <= now')%Q ->
  cache_get cache' now' (cache_key r (_expand_query set_iter query) (top_k_or k (top_k r)))
  = Ok None /\
  ((forall e, exists msg, invoke' e (_expand_query set_iter query) = Raise msg) ->
   search set_iter invoke' r cache' now' query k = Ok ([], cache')).
Proof.
  intros Hmiss Hsearch Hne Hnow.
  destruct (vector_store r) as [vs|] eqn:Hvs;
    [|unfold search in Hsearch; rewrite Hvs in Hsearch; now injection Hsearch as <-].
  destruct (ensemble_retriever r) as [e|] eqn:He;
    [|unfold search in Hsearch; rewrite Hvs, He in Hsearch; now injection Hsearch as <-].
  destruct (documents r) as [|d0 ds0] eqn:Hdocs;
    [unfold search in Hsearch; rewrite Hvs, He, Hdocs in Hsearch; now injection Hsearch as <-|].
  assert (documents r <> []) as Hd by (rewrite Hdocs; discriminate).
  rewrite (search_on_miss _ _ _ _ _ _ _ vs e Hvs He Hd Hmiss) in Hsearch.
  destruct (invoke e _) as [[|d ds]|msg]; try (now injection Hsearch as <-).
  cbv zeta in Hsearch. injection Hsearch as Hres <-.
  assert (cache_get
            {| cache_entries :=
                 <[cache_key r (_expand_query set_iter query) (top_k_or k (top_k r))
                   := {| ce_value :=
                           slice_to (top_k_or k (top_k r))
                             (sort_desc (score_docs query (d :: ds)));
                         ce_expire_time := now + 3600 |}]> (cache_entries cache);
               cache_fault := None |} now'
            (cache_key r (_expand_query set_iter query) (top_k_or k (top_k r))) = Ok None)
    as Hget.
  { unfold cache_get. cbn [cache_fault cache_entries].
    rewrite lookup_insert_eq. cbn [ce_expire_time].
    apply Qltb_ge in Hnow. now rewrite Hnow. }
  split; [exact Hget|].
  intros Hfail.
  erewrite (search_on_miss _ _ _ _ _ _ _ vs e Hvs He Hd); [|left; exact Hget].
  destruct (Hfail e) as [msg' ->]. reflexivity.
Qed.

Lemma cached_results_expire_witness :
  cache_get Sample.found.2 3600
    (cache_key Sample.ready (_expand_query Sample.set_iter Sample.query) 5) = Ok None /\
  ((forall e, exists msg,
       Sample.invoke_fails e (_expand_query Sample.set_iter Sample.query) = Raise msg) ->
   search Sample.set_iter Sample.invoke_fails Sample.ready Sample.found.2 3600 Sample.query
     (Some 5%Z) = Ok ([], Sample.found.2)).
Proof.
  apply (cached_results_expire Sample.set_iter Sample.invoke_ok Sample.invoke_fails
           Sample.ready empty_cache Sample.found.2 0 3600 Sample.query (Some 5%Z)
           Sample.found.1).
  - left. reflexivity.
  - reflexivity.
  - discriminate.
  - discriminate.
Defined.

(** ** The answer of the tool and its sources *)

Section Sources.

Variable set_iter : list string -> list string.
Variable ensemble_invoke : EnsembleRetriever -> string -> exc (list Document).
Variable CONFIDENCE_THRESHOLD : Q.

Hypothesis set_iter_spec :
  forall l, NoDup (set_iter l) /\ forall x, In x (set_iter l) <-> In x l.

(** X8: when the best score reaches the threshold, [_run] formats the
    whole result list, the results below the threshold included, and
    remembers as sources the distinct sources of these results. *)
Theorem confident_results_are_returned_whole (t : Tool) (cache cache' : Cache) (now : Q)
    (query : string) (results : list ActionSearchResult) (best : Q) :
  search set_iter ensemble_invoke (retriever t) cache now query (Some 5%Z)
    = Ok (results, cache') ->
  results <> [] ->
  is_max best (List.map score results) ->
  (CONFIDENCE_THRESHOLD <= best)%Q ->
  exists t',
    _run set_iter ensemble_invoke CONFIDENCE_THRESHOLD t cache now query
      = (format_output set_iter results, t', cache') /\
    retriever t' = retriever t /\
    NoDup (last_sources t') /\
    (forall s, In s (last_sources t') <-> exists res, In res results /\ source res = s).
Proof.
  intros Hsearch Hne Hmax Hle.
  destruct results as [|x xs]; [contradiction|].
  destruct (run_body_populated set_iter ensemble_invoke CONFIDENCE_THRESHOLD
              t cache cache' now query x xs Hsearch) as (best' & Hmax' & Hbody).
  assert (Qltb best' CONFIDENCE_THRESHOLD = false) as Hgate.
  { apply Qltb_ge. eapply Qle_trans; [exact Hle|]. eapply is_max_le; eauto. }
  rewrite Hgate in Hbody. unfold _run. rewrite Hbody.
  eexists. split; [reflexivity|]. split; [reflexivity|].
  cbn [last_sources _last_sources].
  destruct (set_iter_spec (List.map source (x :: xs))) as [Hnodup Hin].
  split; [exact Hnodup|].
  intros s. rewrite Hin, in_map_iff.
  split; intros (res & H1 & H2); exists res; now split.
Qed.

End Sources.

Lemma confident_results_are_returned_whole_witness :
  exists t',
    _run Sample.set_iter Sample.invoke_ok 1 Sample.tool empty_cache 0 Sample.query
      = (format_output Sample.set_iter Sample.found.1, t', Sample.found.2) /\
    retriever t' = retriever Sample.tool /\
    NoDup (last_sources t') /\
    (forall s, In s (last_sources t') <->
               exists res, In res Sample.found.1 /\ source res = s).
Proof.
  eapply (confident_results_are_returned_whole Sample.set_iter Sample.invoke_ok 1
            remove_dups_is_set Sample.tool empty_cache Sample.found.2 0 Sample.query
            Sample.found.1).
  - reflexivity.
  - discriminate.
  - split; [left; reflexivity|]. repeat constructor; vm_compute; discriminate.
  - vm_compute. discriminate.
Defined.

Example low_result_is_kept :
  List.map (fun res => Qltb (score res) 1) Sample.found.1 = [false; true].
Proof. reflexivity. Qed.

(** X9: [_run] keeps the retriever, and unless it returns a populated
    payload it leaves no sources behind, whatever the sources of the
    answer before were. *)
Theorem sources_are_reset_on_miss (set_iter : list string -> list string)
    (ensemble_invoke : EnsembleRetriever -> string -> exc (list Document))
    (threshold : Q) (t : Tool) (cache : Cache) (now : Q) (query : string) :
  let '(output, t', cache') := _run set_iter ensemble_invoke threshold t cache now query in
  retriever t' = retriever t /\
  (is_payload set_iter output \/ last_sources t' = []).
Proof.
  unfold _run, run_body.
  destruct (documents (retriever t)) as [|d ds] eqn:Hdocs.
  { split; [reflexivity | now right]. }
  destruct (search set_iter ensemble_invoke (retriever t) cache now query (Some 5%Z))
    as [[results cache']|msg] eqn:Hsearch; cbn [exc_bind].
  - destruct results as [|x xs]; [split; [reflexivity | now right]|].
    destruct (py_max_spec (List.map score xs) (score x)) as (best & Hmax & _).
    cbn [List.map]. rewrite Hmax. cbn [exc_bind].
    destruct (Qltb best threshold).
    + split; [reflexivity | now right].
    + split; [reflexivity|].
      left. exists (x :: xs). split; [discriminate | reflexivity].
  - split; [reflexivity | now right].
Qed.

(** ** Saving, loading and rebuilding *)

(** X10: an index saved by a built retriever is restored by a load with
    the same fingerprint up to 24 hours later (24 hours included): the
    loader gets the saved vector store, BM25 index, chunks and
    fingerprint, and retrievers rebuilt over them with the loader's own
    [top_k] and weights. *)
Theorem save_then_load_restores (saver loader : Retriever) (vs : VectorStore)
    (index : BM25Okapi) (h : string) (disk : IndexDisk) (saved_at now : Q) :
  vector_store saver = Some vs ->
  bm25 saver = Some index ->
  index_hash saver = Some h ->
  documents saver <> [] ->
  ((now - saved_at) / 3600 <= 24)%Q ->
  exists loaded sparse dense,
    _load_index loader (_save_index saver disk saved_at) now h = (true, loaded) /\
    vector_store loaded = Some vs /\
    bm25 loaded = Some index /\
    documents loaded = documents saver /\
    index_hash loaded = Some h /\
    bm25_retriever loaded = Some sparse /\
    faiss_retriever loaded = Some dense /\
    sparse = {| bmr_docs := documents saver; bmr_k := 2 * Z.max (top_k loader) 5 |} /\
    dense = {| vsr_store := vs; vsr_k := 2 * Z.max (top_k loader) 5 |} /\
    ensemble_retriever loaded
    = Some {| retrievers := [Sparse sparse; Dense dense];
              weights := [bm25_weight loader; vector_weight loader] |}.
Proof.
  intros Hvs Hindex Hhash Hdocs Hage.
  unfold _load_index, _save_index. rewrite Hvs, Hindex.
  cbn [vector_path bm25_path st_mtime st_content pk_index_hash pk_bm25 pk_documents].
  apply Qltb_ge in Hage. rewrite Hage, Hhash.
  rewrite bool_decide_eq_true_2 by reflexivity. cbn [negb].
  unfold _build_retrievers. cbn [set_index documents vector_store top_k bm25_weight vector_weight].
  destruct (documents saver) as [|d ds] eqn:Hd; [contradiction|].
  eexists _, _, _. split; [reflexivity|].
  cbn [set_retrievers set_index vector_store bm25 documents index_hash bm25_retriever
       faiss_retriever ensemble_retriever].
  rewrite (Z.mul_comm (Z.max (top_k loader) 5) 2).
  repeat split; reflexivity.
Qed.

Lemma save_then_load_restores_witness :
  exists loaded sparse dense,
    _load_index (set_config Sample.fresh 600 150 7 (1 # 2) (1 # 2))
      (_save_index Sample.ready Sample.no_disk 1000) (1000 + 24 * 3600)
      "267b8b56d3c72538b26c6924b0349c2e" = (true, loaded) /\
    vector_store loaded = Some (mkVectorStore (documents Sample.ready)) /\
    bm25 loaded = bm25 Sample.ready /\
    documents loaded = documents Sample.ready /\
    index_hash loaded = Some "267b8b56d3c72538b26c6924b0349c2e" /\
    bm25_retriever loaded = Some sparse /\
    faiss_retriever loaded = Some dense /\
    sparse = {| bmr_docs := documents Sample.ready; bmr_k := 2 * Z.max 7 5 |} /\
    dense = {| vsr_store := mkVectorStore (documents Sample.ready); vsr_k := 2 * Z.max 7 5 |} /\
    ensemble_retriever loaded
    = Some {| retrievers := [Sparse sparse; Dense dense]; weights := [1 # 2; 1 # 2]%Q |}.
Proof.
  apply (save_then_load_restores Sample.ready (set_config Sample.fresh 600 150 7 (1 # 2) (1 # 2))).
  - reflexivity.
  - reflexivity.
  - reflexivity.
  - discriminate.
  - vm_compute. discriminate.
Defined.

(** X11: a load that succeeds has found both files, a bundle not older
    than 24 hours whose stored fingerprint is the current one, and has
    installed the chunks and the vector store it read; a load that fails
    leaves the retriever as it was. *)
Theorem load_index_outcomes (r : Retriever) (disk : IndexDisk) (now : Q) (h : string) :
  let '(ok, r') := _load_index r disk now h in
  if ok then
    exists vfile bfile data vs,
      vector_path disk = Some vfile /\ bm25_path disk = Some bfile /\
      st_content vfile = Some vs /\ st_content bfile = Some data /\
      ((now - st_mtime bfile) / 3600 <= 24)%Q /\
      pk_index_hash data = Some h /\
      vector_store r' = Some vs /\ bm25 r' = Some (pk_bm25 data) /\
      documents r' = pk_documents data /\ index_hash r' = Some h
  else r' = r.
Proof.
  destruct (_load_index r disk now h) as [ok r'] eqn:Hload.
  destruct ok; [|exact (load_index_false _ _ _ _ _ Hload)].
  revert Hload. unfold _load_index.
  destruct (vector_path disk) as [vfile|]; [|discriminate].
  destruct (bm25_path disk) as [bfile|]; [|discriminate].
  destruct (Qltb 24 _) eqn:Hage; [discriminate|]. apply Qltb_ge in Hage.
  destruct (st_content bfile) as [data|] eqn:Hb; [|discriminate].
  destruct (bool_decide (pk_index_hash data = Some h)) eqn:Hh; [|discriminate].
  apply bool_decide_eq_true_1 in Hh. cbn [negb].
  destruct (st_content vfile) as [vs|] eqn:Hv; [|discriminate].
  unfold _build_retrievers. cbn [set_index documents vector_store].
  destruct (pk_documents data) as [|d ds] eqn:Hd; intros [= <-];
    exists vfile, bfile, data, vs; rewrite ?Hd; repeat split; assumption.
Qed.

Section Rebuild.

Variable docx_load : string -> exc (list Document).
Variable split_documents : Z -> Z -> list Document -> list Document.
Variable project_root : string.

Lemma build_index_split (r : Retriever) (fs : FileSystem) (disk : IndexDisk) (now : Q)
    (force_rebuild : bool) :
  build_index docx_load split_documents project_root r fs disk now force_rebuild
  = if force_rebuild
    then build_from_documents docx_load split_documents project_root r fs
           {| vector_path := None; bm25_path := None |} now (_compute_version_hash fs r)
    else
      let '(loaded, r') := _load_index r disk now (_compute_version_hash fs r) in
      if loaded then Ok (r', disk)
      else build_from_documents docx_load split_documents project_root r' fs disk now
             (_compute_version_hash fs r).
Proof.
  unfold build_index, build_from_documents. destruct force_rebuild; [reflexivity|].
  destruct (_load_index r disk now _) as [[] r']; reflexivity.
Qed.

(** X12: a forced rebuild that finds no master document deletes the
    persisted index and leaves the retriever as it was, an index it
    already holds in memory included; afterwards no retriever can load a
    persisted index, and an unforced build over the same files changes
    nothing. *)
Theorem forced_rebuild_without_documents (r : Retriever) (fs : FileSystem)
    (disk : IndexDisk) (now : Q) :
  _find_master_document project_root fs r = None ->
  exists disk',
    build_index docx_load split_documents project_root r fs disk now true = Ok (r, disk') /\
    vector_path disk' = None /\ bm25_path disk' = None /\
    (forall loader now' h, _load_index loader disk' now' h = (false, loader)) /\
    (forall now',
       build_index docx_load split_documents project_root r fs disk' now' false
       = Ok (r, disk')).
Proof.
  intros Hfind. exists {| vector_path := None; bm25_path := None |}.
  assert (Hdocs : _load_master_document docx_load project_root fs r = [])
    by (unfold _load_master_document; now rewrite Hfind).
  repeat split.
  - rewrite build_index_split. unfold build_from_documents. now rewrite Hdocs.
  - intros now'. rewrite build_index_split. unfold _load_index, build_from_documents.
    cbn [vector_path]. now rewrite Hdocs.
Qed.





(** X14: after a forced rebuild that has built an index, an unforced
    build by a new retriever with the same arguments, up to 24 hours
    later and over an unchanged corpus identity, restores exactly the
    retriever of the rebuild and leaves the disk as it is. *)
Theorem rebuild_is_restored_by_next_build (cache_dir : option string)
    (document_paths : option (list string)) (s3_version_hash : option string)
    (fs fs' : FileSystem) (disk : IndexDisk) (now now' : Q) (r1 : Retriever)
    (disk1 : IndexDisk) :
  let r := __init__ cache_dir document_paths s3_version_hash in
  build_index docx_load split_documents project_root r fs disk now true = Ok (r1, disk1) ->
  documents r1 <> [] ->
  _compute_version_hash fs' r = _compute_version_hash fs r ->
  ((now' - now) / 3600 <= 24)%Q ->
  build_index docx_load split_documents project_root r fs' disk1 now' false
  = Ok (r1, disk1).
Proof.
  intros r Hbuild Hdocs Hhash Hage.
  rewrite build_index_split in Hbuild. rewrite build_index_split, Hhash.
  revert Hbuild. generalize (_compute_version_hash fs r) as h. intros h.
  unfold build_from_documents.
  destruct (_load_master_document _ _ _ _) as [|x xs];
    [intros [= <- <-]; contradiction|].
  destruct (_chunk_documents split_documents _ (x :: xs)) as [|c cs] eqn:Hc;
    [intros [= <- <-]; contradiction|].
  unfold _build_retrievers.
  cbn [set_index documents vector_store exc_bind set_retrievers bm25 index_hash
       top_k bm25_weight vector_weight __init__ r].
  intros [= <- <-].
  unfold _load_index, _save_index.
  cbn [set_index set_retrievers documents vector_store bm25 index_hash
       vector_path bm25_path st_mtime st_content pk_index_hash pk_bm25 pk_documents].
  apply Qltb_ge in Hage. rewrite Hage.
  rewrite bool_decide_eq_true_2 by reflexivity. cbn [negb].
  unfold _build_retrievers. reflexivity.
Qed.

End Rebuild.

Lemma forced_rebuild_without_documents_witness :
  exists disk',
    build_index Sample.docx_load Sample.split_documents Sample.project_root
      Sample.ready Sample.empty_fs Sample.saved 2000 true = Ok (Sample.ready, disk') /\
    vector_path disk' = None /\ bm25_path disk' = None /\
    (forall loader now' h, _load_index loader disk' now' h = (false, loader)) /\
    (forall now',
       build_index Sample.docx_load Sample.split_documents Sample.project_root
         Sample.ready Sample.empty_fs disk' now' false
       = Ok (Sample.ready, disk')).
Proof.
  apply (forced_rebuild_without_documents Sample.docx_load Sample.split_documents
           Sample.project_root Sample.ready Sample.empty_fs Sample.saved 2000).
  reflexivity.
Defined.



Lemma rebuild_is_restored_by_next_build_witness :
  build_index Sample.docx_load Sample.split_documents Sample.project_root
    (__init__ (Some "/cache") None None) Sample.cache_fs Sample.saved (1000 + 24 * 3600) false
  = Ok (Sample.ready, Sample.saved).
Proof.
  apply (rebuild_is_restored_by_next_build Sample.docx_load Sample.split_documents
           Sample.project_root (Some "/cache") None None Sample.cache_fs Sample.cache_fs
           Sample.no_disk 1000 (1000 + 24 * 3600) Sample.ready Sample.saved).
  - vm_compute. reflexivity.
  - discriminate.
  - reflexivity.
  - vm_compute. discriminate.
Defined.

(** ** Placeholder clean-up *)

Lemma lower_app (a b : string) : Str.lower (a ++ b) = Str.lower a ++ Str.lower b.
Proof.
  induction a as [|c a IH]; [reflexivity|].
  rewrite append_cons. cbn [Str.lower]. now rewrite IH, append_cons.
Qed.

Lemma lower_length (s : string) : String.length (Str.lower s) = String.length s.
Proof. induction s as [|c s IH]; cbn; [reflexivity | now rewrite IH]. Qed.

Lemma lower_ascii_bracket (c : ascii) :
  Ascii.eqb (Str.lower_ascii c) "[" = Ascii.eqb c "[".
Proof. destruct c as [[] [] [] [] [] [] [] []]; reflexivity. Qed.

Lemma no_bracket_lower (s : string) : no_bracket (Str.lower s) = no_bracket s.
Proof.
  induction s as [|c s IH]; [reflexivity|].
  unfold no_bracket in *. cbn [Str.lower all_chars].
  now rewrite lower_ascii_bracket, IH.
Qed.

Lemma no_bracket_app (a b : string) :
  no_bracket (a ++ b) = no_bracket a && no_bracket b.
Proof.
  induction a as [|c a IH]; [reflexivity|].
  rewrite append_cons. unfold no_bracket in *. cbn [all_chars].
  now rewrite IH, andb_assoc.
Qed.

Section Substitution.

Variable match_len : string -> option nat.
Variable rep : string.

(** The pattern matches only at an opening bracket. *)
Hypothesis match_at_bracket :
  forall text n, match_len text = Some (S n) -> exists rest, text = String "[" rest.

Lemma re_sub_no_bracket (text : string) :
  no_bracket text = true -> re_sub match_len rep O text = text.
Proof.
  induction text as [|c text IH]; [reflexivity|].
  unfold no_bracket. cbn [all_chars]. intros [Hc Ht]%andb_true_iff.
  cbn [re_sub].
  destruct (match_len (String c text)) as [[|n]|] eqn:Hm;
    try (now rewrite (IH Ht)).
  destruct (match_at_bracket _ _ Hm) as [rest [= -> _]]. discriminate.
Qed.

Lemma re_sub_after_no_bracket (before text : string) :
  no_bracket before = true ->
  re_sub match_len rep O (before ++ text) = before ++ re_sub match_len rep O text.
Proof.
  induction before as [|c before IH]; [reflexivity|].
  unfold no_bracket. cbn [all_chars]. intros [Hc Ht]%andb_true_iff.
  rewrite !append_cons. cbn [re_sub].
  destruct (match_len (String c (before ++ text))) as [[|n]|] eqn:Hm;
    try (now rewrite (IH Ht)).
  destruct (match_at_bracket _ _ Hm) as [rest [= -> _]]. discriminate.
Qed.

Lemma re_sub_skip (matched text : string) :
  re_sub match_len rep (String.length matched) (matched ++ text)
  = re_sub match_len rep O text.
Proof.
  induction matched as [|c matched IH]; [destruct text; reflexivity|].
  rewrite append_cons. cbn [String.length re_sub]. exact IH.
Qed.

(** A placeholder that stands between bracket-free texts is replaced when
    the pattern matches it, and kept when the pattern does not. *)
Lemma re_sub_placeholder (before inner after : string) :
  no_bracket before = true -> no_bracket inner = true -> no_bracket after = true ->
  re_sub match_len rep O (before ++ String "[" inner ++ after)
  = match match_len (String "[" inner ++ after) with
    | Some (S n) =>
        if Nat.eqb n (String.length inner) then before ++ rep ++ after
        else re_sub match_len rep O (before ++ String "[" inner ++ after)
    | _ => before ++ String "[" inner ++ after
    end.
Proof.
  intros Hb Hi Ha.
  destruct (match_len (String "[" inner ++ after)) as [[|n]|] eqn:Hm.
  - rewrite re_sub_after_no_bracket by assumption.
    rewrite append_cons in *. cbn [re_sub]. rewrite Hm. f_equal. f_equal.
    apply re_sub_no_bracket. now rewrite no_bracket_app, Hi, Ha.
  - destruct (Nat.eqb_spec n (String.length inner)) as [->|]; [|reflexivity].
    rewrite re_sub_after_no_bracket by assumption.
    rewrite append_cons in *. cbn [re_sub]. rewrite Hm.
    now rewrite re_sub_skip, re_sub_no_bracket.
  - rewrite re_sub_after_no_bracket by assumption.
    rewrite append_cons in *. cbn [re_sub]. rewrite Hm. f_equal. f_equal.
    apply re_sub_no_bracket. now rewrite no_bracket_app, Hi, Ha.
Qed.

End Substitution.

Lemma lower_bracket_head (text rest : string) :
  Str.lower text = String "[" rest -> exists rest', text = String "[" rest'.
Proof.
  destruct text as [|c text]; [discriminate|]. cbn [Str.lower].
  intros [= Hc _]. exists text. f_equal.
  apply Ascii.eqb_eq. rewrite <- lower_ascii_bracket, Hc. reflexivity.
Qed.

Lemma match_literal_at_bracket (pattern pattern' : string) (text : string) (n : nat) :
  Str.lower pattern = String "[" pattern' ->
  match_literal pattern text = Some (S n) -> exists rest, text = String "[" rest.
Proof.
  intros Hp. unfold match_literal. rewrite Hp.
  destruct (Str.lower text) as [|c t] eqn:Ht; [discriminate|].
  cbn [String.prefix]. destruct (ascii_dec "[" c) as [<-|]; [|discriminate].
  intros _. eapply lower_bracket_head; eauto.
Qed.

Lemma match_insert_at_bracket (text : string) (n : nat) :
  match_insert text = Some (S n) -> exists rest, text = String "[" rest.
Proof.
  destruct text as [|c text]; [discriminate|]. unfold match_insert.
  destruct c as [[] [] [] [] [] [] [] []]; try discriminate. eauto.
Qed.

Lemma literal_pass_clean (text : string) (pattern replacement : string) :
  no_bracket text = true ->
  (exists pattern', Str.lower pattern = String "[" pattern') ->
  re_sub (match_literal pattern) replacement O text = text.
Proof.
  intros H [pattern' Hp]. apply re_sub_no_bracket; [|exact H].
  intros t n. now apply match_literal_at_bracket with pattern'.
Qed.

(** X15: a text without an opening bracket passes through
    [_sanitize_content] unchanged. *)
Theorem sanitize_keeps_text_without_brackets (text : string) :
  no_bracket text = true -> _sanitize_content text = text.
Proof.
  intros H. unfold _sanitize_content, replacements. cbn [List.fold_left].
  repeat rewrite (fun p r => literal_pass_clean text p r H) by (eexists; reflexivity).
  apply re_sub_no_bracket; [apply match_insert_at_bracket | exact H].
Qed.

Lemma sanitize_keeps_text_without_brackets_witness :
  _sanitize_content "Step 1: open the HR portal (Leave > Apply)."
  = "Step 1: open the HR portal (Leave > Apply).".
Proof.
  apply (sanitize_keeps_text_without_brackets "Step 1: open the HR portal (Leave > Apply).").
  reflexivity.
Defined.

Lemma lower_variant_shape (variant pattern' : string) :
  Str.lower variant = String "[" pattern' ->
  exists inner,
    variant = String "[" inner /\ Str.lower inner = pattern' /\
    no_bracket inner = no_bracket pattern' /\
    String.length inner = String.length pattern'.
Proof.
  intros H. destruct (lower_bracket_head _ _ H) as [inner ->].
  assert (Str.lower inner = pattern') as H' by (cbn [Str.lower] in H; congruence).
  exists inner. split; [reflexivity|]. split; [exact H'|].
  now rewrite <- H', no_bracket_lower, lower_length.
Qed.

(** One literal pass over a placeholder between bracket-free texts. *)
Lemma literal_pass_placeholder (pattern replacement before inner after : string)
    (pattern' folded : string) :
  Str.lower pattern = String "[" pattern' ->
  no_bracket before = true -> no_bracket inner = true -> no_bracket after = true ->
  Str.lower inner = folded ->
  re_sub (match_literal pattern) replacement O (before ++ String "[" inner ++ after)
  = if String.prefix (String "[" pattern') (String "[" (folded ++ Str.lower after))
    then
      if Nat.eqb (String.length pattern') (String.length folded)
      then before ++ replacement ++ after
      else re_sub (match_literal pattern) replacement O (before ++ String "[" inner ++ after)
    else before ++ String "[" inner ++ after.
Proof.
  intros Hp Hb Hi Ha Hfold.
  rewrite (re_sub_placeholder (match_literal pattern) replacement
             (fun t n => match_literal_at_bracket pattern pattern' t n Hp)
             before inner after Hb Hi Ha) at 1.
  unfold match_literal at 1. rewrite Hp, append_cons.
  cbn [Str.lower Str.lower_ascii Str.is_upper Str.ascii_in]. rewrite lower_app, Hfold.
  change (Str.lower_ascii "[") with "["%char.
  destruct (String.prefix _ _); [|reflexivity].
  assert (String.length pattern = S (String.length pattern')) as ->
    by (rewrite <- (lower_length pattern), Hp; reflexivity).
  now rewrite <- Hfold, lower_length.
Qed.

Ltac decide_conditions :=
  repeat match goal with
         | |- context [if ?c then _ else _] =>
             let v := eval vm_compute in c in
             change c with v; cbv iota
         end.

Lemma literal_pass_hit (pattern replacement before inner after folded : string) :
  Str.lower pattern = String "[" folded ->
  no_bracket before = true -> no_bracket inner = true -> no_bracket after = true ->
  Str.lower inner = folded ->
  re_sub (match_literal pattern) replacement O (before ++ String "[" inner ++ after)
  = before ++ replacement ++ after.
Proof.
  intros Hp Hb Hi Ha Hfold.
  rewrite (literal_pass_placeholder pattern replacement before inner after folded folded
             Hp Hb Hi Ha Hfold).
  rewrite <- append_cons, (prefix_app _ _ _ (prefix_refl _)), Nat.eqb_refl.
  reflexivity.
Qed.

Ltac literal_pass pattern before inner after Hb Hi Ha Hfold :=
  first
    [ rewrite (fun r => literal_pass_hit pattern r before inner after _
                          eq_refl Hb Hi Ha Hfold)
    | rewrite (fun r => literal_pass_placeholder pattern r before inner after _ _
                          eq_refl Hb Hi Ha Hfold);
      decide_conditions ].

(** X16: a listed placeholder, in any mixture of upper and lower case,
    between texts without opening brackets is replaced by its
    replacement, and the texts around it are kept. *)
Theorem sanitize_replaces_placeholder (before variant after pattern replacement : string) :
  In (pattern, replacement) replacements ->
  Str.lower variant = Str.lower pattern ->
  no_bracket before = true ->
  no_bracket after = true ->
  _sanitize_content (before ++ variant ++ after) = before ++ replacement ++ after.
Proof.
  intros Hin Hlow Hb Ha.
  assert (forall r, no_bracket r = true ->
            re_sub match_insert "the appropriate details" O (before ++ r ++ after)
            = before ++ r ++ after) as Hgeneric.
  { intros r Hr. apply re_sub_no_bracket; [apply match_insert_at_bracket|].
    now rewrite !no_bracket_app, Hb, Hr, Ha. }
  assert (forall p r' r, no_bracket r = true ->
            (exists p', Str.lower p = String "[" p') ->
            re_sub (match_literal p) r' O (before ++ r ++ after) = before ++ r ++ after)
    as Hclean.
  { intros p r' r Hr Hp. apply literal_pass_clean; [|exact Hp].
    now rewrite !no_bracket_app, Hb, Hr, Ha. }
  unfold _sanitize_content, replacements in *. cbn [List.fold_left].
  cbn [In] in Hin.
  destruct Hin as [Hin|[Hin|[Hin|[Hin|[Hin|[Hin|[]]]]]]];
    injection Hin as <- <-;
    match type of Hlow with
    | _ = Str.lower ?p =>
        let q := eval vm_compute in (Str.lower p) in change (Str.lower p) with q in Hlow
    end;
    destruct (lower_variant_shape _ _ Hlow) as (inner & -> & Hfold & Hi & _);
    change (no_bracket inner = true) in Hi;
    literal_pass "[insert name and job title]" before inner after Hb Hi Ha Hfold;
    try literal_pass "[insert job title]" before inner after Hb Hi Ha Hfold;
    try literal_pass "[the Company]" before inner after Hb Hi Ha Hfold;
    try literal_pass "[Company Name]" before inner after Hb Hi Ha Hfold;
    try literal_pass "[Employee]" before inner after Hb Hi Ha Hfold;
    try literal_pass "[INSERT LOGO HERE]" before inner after Hb Hi Ha Hfold;
    repeat rewrite Hclean by (first [reflexivity | eexists; reflexivity]);
    apply Hgeneric; reflexivity.
Qed.

Lemma sanitize_replaces_placeholder_witness :
  _sanitize_content ("Contact " ++ "[INSERT Job Title]" ++ " for approval.")
  = "Contact " ++ "HR Representative" ++ " for approval.".
Proof.
  apply (sanitize_replaces_placeholder "Contact " "[INSERT Job Title]" " for approval."
           "[insert job title]" "HR Representative").
  - right. left. reflexivity.
  - reflexivity.
  - reflexivity.
  - reflexivity.
Defined.

(** ** Cache keys *)

Lemma all_chars_app (p : ascii -> bool) (a b : string) :
  all_chars p (a ++ b) = all_chars p a && all_chars p b.
Proof.
  induction a as [|c a IH]; [reflexivity|].
  rewrite append_cons. cbn [all_chars]. now rewrite IH, andb_assoc.
Qed.

(** Two strings that agree before and after their last separator have
    the same parts. *)
Lemma split_at_last_separator (c : ascii) (s1 s2 t1 t2 : string) :
  all_chars (fun x => negb (Ascii.eqb x c)) t1 = true ->
  all_chars (fun x => negb (Ascii.eqb x c)) t2 = true ->
  s1 ++ String c t1 = s2 ++ String c t2 ->
  s1 = s2 /\ t1 = t2.
Proof.
  intros H1 H2. revert s2. induction s1 as [|x s1 IH]; intros [|y s2].
  - intros [= ->]. now split.
  - rewrite append_cons. intros [= <- ->].
    rewrite all_chars_app in H1. cbn [all_chars] in H1.
    rewrite Ascii.eqb_refl, andb_false_r in H1. discriminate.
  - rewrite append_cons. intros [= -> <-].
    rewrite all_chars_app in H2. cbn [all_chars] in H2.
    rewrite Ascii.eqb_refl, andb_false_r in H2. discriminate.
  - rewrite !append_cons. intros [= -> H].
    destruct (IH _ H) as [-> ->]. now split.
Qed.

(** X17: the cache key tells searches apart: two keys are equal only for
    the same index fingerprint (written without a colon, as a hex digest
    is), the same expanded query and the same [top_k]. *)
Theorem cache_key_is_injective (r r' : Retriever) (expanded expanded' : string) (k k' : Z) :
  no_colon (default "None" (index_hash r)) = true ->
  no_colon (default "None" (index_hash r')) = true ->
  cache_key r expanded k = cache_key r' expanded' k' ->
  default "None" (index_hash r) = default "None" (index_hash r') /\
  expanded = expanded' /\ k = k'.
Proof.
  intros Hh Hh'. unfold cache_key.
  intros H. apply (inj (String.append "master_search:")) in H.
  destruct (split_at_separator ":" _ _ (expanded ++ ":" ++ Str.of_Z k)
              (expanded' ++ ":" ++ Str.of_Z k') Hh Hh' H) as [Hhash Hrest].
  pose proof (fun n => all_chars_impl _ _ _ (num_char_not ":" eq_refl) (of_Z_digits n))
    as Hdigits.
  destruct (split_at_last_separator ":" expanded expanded' (Str.of_Z k) (Str.of_Z k')
              (Hdigits k) (Hdigits k') Hrest) as [Hexp Hk].
  split; [exact Hhash|]. split; [exact Hexp|]. now apply of_Z_inj.
Qed.

Lemma cache_key_is_injective_witness :
  default "None" (index_hash Sample.ready) = default "None" (index_hash Sample.ready) /\
  "apply: leave" = "apply: leave" /\ 5 = 5.
Proof.
  apply (cache_key_is_injective Sample.ready Sample.ready "apply: leave" "apply: leave" 5 5).
  - reflexivity.
  - reflexivity.
  - reflexivity.
Defined.

Example cache_key_example :
  cache_key Sample.ready "apply: leave" 5
  = "master_search:267b8b56d3c72538b26c6924b0349c2e:apply: leave:5".
Proof. reflexivity. Qed.

(** ** The shape of the fingerprint *)

Lemma hex_digit_is_hex (n : Z) : 0 <= n < 16 -> is_hex_char (MD5.hex_digit n) = true.
Proof.
  intros H.
  assert (Hall : forallb (fun k => is_hex_char (MD5.hex_digit (Z.of_nat k))) (seq 0 16) = true)
    by reflexivity.
  rewrite forallb_forall in Hall.
  rewrite <- (Z2Nat.id n) by lia.
  apply Hall, in_seq. lia.
Qed.

Lemma hex_shape (bs : list Z) :
  Forall (fun b => 0 <= b < 256) bs ->
  String.length (MD5.hex bs) = (2 * List.length bs)%nat /\
  all_chars is_hex_char (MD5.hex bs) = true.
Proof.
  induction 1 as [|b bs Hb _ [IHlen IHhex]]; [split; reflexivity|].
  cbn [MD5.hex String.length List.length all_chars]. split; [lia|].
  rewrite IHhex, !hex_digit_is_hex; [reflexivity| |].
  - change 15 with (Z.ones 4). rewrite Z.land_ones by lia.
    apply Z.mod_pos_bound. reflexivity.
  - rewrite Z.shiftr_div_pow2 by lia. change (2 ^ 4) with 16.
    split; [apply Z.div_pos; lia | apply Z.div_lt_upper_bound; lia].
Qed.

Lemma le_bytes_shape (len : nat) (n : Z) :
  List.length (MD5.le_bytes len n) = len /\
  Forall (fun b => 0 <= b < 256) (MD5.le_bytes len n).
Proof.
  revert n. induction len as [|len IH]; intros n; [split; [reflexivity | constructor]|].
  cbn [MD5.le_bytes List.length]. destruct (IH (Z.shiftr n 8)) as [Hlen Hall].
  split; [now rewrite Hlen|]. constructor; [|exact Hall].
  change 0xff with (Z.ones 8). rewrite Z.land_ones by lia.
  apply Z.mod_pos_bound. reflexivity.
Qed.

Lemma digest_shape (msg : list Z) :
  List.length (MD5.digest msg) = 16%nat /\
  Forall (fun b => 0 <= b < 256) (MD5.digest msg).
Proof.
  unfold MD5.digest.
  destruct (MD5.blocks _ _ _) as [[[a b] c] d].
  pose proof (le_bytes_shape 4 a) as [La Fa].
  pose proof (le_bytes_shape 4 b) as [Lb Fb].
  pose proof (le_bytes_shape 4 c) as [Lc Fc].
  pose proof (le_bytes_shape 4 d) as [Ld Fd].
  split.
  - rewrite !length_app, La, Lb, Lc, Ld. reflexivity.
  - repeat (apply Forall_app; split); assumption.
Qed.

(** X18: whatever the corpus identity and the configuration, the
    fingerprint is a string of 32 lower-case hexadecimal digits. *)
Theorem fingerprint_is_32_hex_digits (fs : FileSystem) (r : Retriever) :
  String.length (_compute_version_hash fs r) = 32%nat /\
  all_chars is_hex_char (_compute_version_hash fs r) = true /\
  no_colon (_compute_version_hash fs r) = true.
Proof.
  unfold _compute_version_hash, Hasher.hexdigest, MD5.hexdigest.
  destruct (digest_shape (MD5.bytes_of_string (version_hasher fs r))) as [Hlen Hall].
  destruct (hex_shape _ Hall) as [Hl Hh]. rewrite Hlen in Hl.
  split; [exact Hl|]. split; [exact Hh|].
  eapply all_chars_impl; [|exact Hh].
  intros c Hc. destruct (Ascii.eqb_spec c ":") as [->|]; [discriminate | reflexivity].
Qed.

(** ** Finding the master document *)

Section Finder.

Variable set_iter : list string -> list string.
Variable ensemble_invoke : EnsembleRetriever -> string -> exc (list Document).
Variable docx_load : string -> exc (list Document).
Variable split_documents : Z -> Z -> list Document -> list Document.
Variable project_root : string.

(** X19: a path returned by [_find_master_document] is a document path
    that exists and is named after a keyword, or the exact file name in
    the existing cache directory, or a keyword-named entry of the listing
    of the cache directory or of the local data directory. *)
Theorem found_master_document_is_listed (fs : FileSystem) (r : Retriever) (path : string) :
  _find_master_document project_root fs r = Some path ->
  (In path (default [] (document_paths r)) /\
   fs_exists fs path = true /\ is_master_name path = true) \/
  (exists dir,
      nonempty (cache_dir r) = Some dir /\ fs_exists fs dir = true /\
      ((path = path_join dir exact_name /\ fs_exists fs path = true) \/
       (In path (fs_glob_docx fs dir) /\ is_master_name path = true))) \/
  (let local_master := path_join (path_join project_root "data") "Master-Document" in
   fs_exists fs local_master = true /\
   In path (fs_glob_docx fs local_master) /\ is_master_name path = true).
Proof.
  unfold _find_master_document.
  set (local_master := path_join (path_join project_root "data") "Master-Document").
  destruct (List.find _ (default [] (document_paths r))) as [p|] eqn:Hdoc.
  { intros [= <-]. apply find_some in Hdoc as [Hin [He Hm]%andb_true_iff]. now left. }
  assert (forall dir found,
            find_in_dir fs dir = Some found ->
            (found = path_join dir exact_name /\ fs_exists fs found = true) \/
            (In found (fs_glob_docx fs dir) /\ is_master_name found = true)) as Hdir.
  { intros dir found. unfold find_in_dir.
    destruct (fs_exists fs (path_join dir exact_name)) eqn:He.
    - intros [= <-]. now left.
    - intros Hf. apply find_some in Hf. now right. }
  destruct (nonempty (cache_dir r)) as [dir|] eqn:Hcache.
  - destruct (fs_exists fs dir) eqn:Hexists.
    + cbn [omap list_omap]. destruct (find_in_dir fs dir) as [found|] eqn:Hfound.
      * intros [= <-]. right; left. exists dir. repeat split; try assumption.
        now apply Hdir.
      * cbn. destruct (fs_exists fs local_master) eqn:Hlocal; [|discriminate].
        intros Hf. apply find_some in Hf. right; right. now split.
    + cbn. destruct (fs_exists fs local_master) eqn:Hlocal; [|discriminate].
      intros Hf. apply find_some in Hf. right; right. now split.
  - cbn. destruct (fs_exists fs local_master) eqn:Hlocal; [|discriminate].
    intros Hf. apply find_some in Hf. right; right. now split.
Qed.

Lemma find_nothing_without_files (fs : FileSystem) (r : Retriever) :
  (forall path, fs_exists fs path = false) ->
  _find_master_document project_root fs r = None.
Proof.
  intros Hfs. unfold _find_master_document.
  assert (List.find (fun p => fs_exists fs p && is_master_name p)
            (default [] (document_paths r)) = None) as ->.
  { induction (default [] (document_paths r)) as [|p l IH]; [reflexivity|].
    cbn. now rewrite Hfs. }
  destruct (nonempty (cache_dir r)); rewrite ?Hfs; cbn; rewrite ?Hfs; reflexivity.
Qed.

(** X20: with no file on the file system and no persisted index to
    restore, [MasterActionsTool.__init__] completes, and every [_run] of
    the tool it gives returns ["NO_ACTION_FOUND"] and changes neither the
    tool nor the cache, even when the cache store fails. *)
Theorem tool_without_files_always_misses (cache_dir : option string)
    (document_paths : option (list string)) (s3_version_hash : option string)
    (force_rebuild : bool) (fs : FileSystem) (disk : IndexDisk) (now : Q) :
  (forall path, fs_exists fs path = false) ->
  force_rebuild = true \/ bm25_path disk = None ->
  exists t disk',
    tool_init docx_load split_documents project_root cache_dir document_paths
      s3_version_hash force_rebuild fs disk now = Ok (t, disk') /\
    forall threshold cache time query,
      _run set_iter ensemble_invoke threshold t cache time query
      = (NO_ACTION_FOUND, t, cache).
Proof.
  intros Hfs Hdisk. unfold tool_init. rewrite build_index_split.
  set (r := __init__ cache_dir document_paths s3_version_hash).
  assert (forall base h,
            build_from_documents docx_load split_documents project_root r fs base now h
            = Ok (r, base)) as Hbuild.
  { intros base h. unfold build_from_documents.
    rewrite load_master_document_none by now apply find_nothing_without_files.
    reflexivity. }
  destruct force_rebuild.
  - rewrite Hbuild. cbn [exc_bind]. eexists _, _. split; reflexivity.
  - destruct Hdisk as [|Hdisk]; [discriminate|].
    assert (_load_index r disk now (_compute_version_hash fs r) = (false, r)) as ->.
    { unfold _load_index. rewrite Hdisk. now destruct (vector_path disk). }
    rewrite Hbuild. cbn [exc_bind]. eexists _, _. split; reflexivity.
Qed.

End Finder.

Lemma found_master_document_is_listed_witness :
  (In "/cache/Master Guide.docx" (default [] (document_paths Sample.fresh)) /\
   fs_exists Sample.cache_fs "/cache/Master Guide.docx" = true /\
   is_master_name "/cache/Master Guide.docx" = true) \/
  (exists dir,
      nonempty (cache_dir Sample.fresh) = Some dir /\ fs_exists Sample.cache_fs dir = true /\
      (("/cache/Master Guide.docx" = path_join dir exact_name /\
        fs_exists Sample.cache_fs "/cache/Master Guide.docx" = true) \/
       (In "/cache/Master Guide.docx" (fs_glob_docx Sample.cache_fs dir) /\
        is_master_name "/cache/Master Guide.docx" = true))) \/
  (let local_master := path_join (path_join Sample.project_root "data") "Master-Document" in
   fs_exists Sample.cache_fs local_master = true /\
   In "/cache/Master Guide.docx" (fs_glob_docx Sample.cache_fs local_master) /\
   is_master_name "/cache/Master Guide.docx" = true).
Proof.
  apply (found_master_document_is_listed Sample.project_root Sample.cache_fs Sample.fresh
           "/cache/Master Guide.docx").
  reflexivity.
Defined.

Lemma tool_without_files_always_misses_witness :
  exists t disk',
    tool_init Sample.docx_load Sample.split_documents Sample.project_root
      (Some "/cache") (Some ["docs/leave guide.docx"]) None false Sample.empty_fs
      Sample.no_disk 0 = Ok (t, disk') /\
    forall threshold cache time query,
      _run Sample.set_iter Sample.invoke_ok threshold t cache time query
      = (NO_ACTION_FOUND, t, cache).
Proof.
  apply (tool_without_files_always_misses Sample.set_iter Sample.invoke_ok Sample.docx_load
           Sample.split_documents Sample.project_root (Some "/cache")
           (Some ["docs/leave guide.docx"]) None false Sample.empty_fs Sample.no_disk 0).
  - reflexivity.
  - right. reflexivity.
Defined.

(** ** What a forced rebuild leaves *)

Section FreshIndex.

Variable docx_load : string -> exc (list Document).
Variable split_documents : Z -> Z -> list Document -> list Document.
Variable project_root : string.

(** X21: after a forced rebuild on a new retriever, the chunks it holds
    carry the identifiers 0, 1, ..., n-1 in order; and when there are
    chunks, the bundle written to disk at that time holds exactly these
    chunks, the BM25 index and the current fingerprint, beside the vector
    store of the retriever. *)
Theorem forced_rebuild_saves_what_it_holds (cache_dir : option string)
    (document_paths : option (list string)) (s3_version_hash : option string)
    (fs : FileSystem) (disk disk' : IndexDisk) (now : Q) (r' : Retriever) :
  let r := __init__ cache_dir document_paths s3_version_hash in
  build_index docx_load split_documents project_root r fs disk now true = Ok (r', disk') ->
  List.map meta_chunk_id (documents r')
  = List.map (fun i => Some (Z.of_nat i)) (seq 0 (List.length (documents r'))) /\
  (documents r' <> [] ->
   exists index,
     bm25 r' = Some index /\
     index_hash r' = Some (_compute_version_hash fs r) /\
     bm25_path disk'
     = Some {| st_mtime := now;
               st_content := Some {| pk_bm25 := index;
                                     pk_documents := documents r';
                                     pk_index_hash := index_hash r' |} |} /\
     vector_path disk'
     = Some {| st_mtime := now; st_content := vector_store r' |}).
Proof.
  intros r. rewrite build_index_split. unfold build_from_documents.
  destruct (_load_master_document _ _ _ _) as [|x xs];
    [intros [= <- <-]; split; [reflexivity | contradiction]|].
  destruct (_chunk_documents split_documents r (x :: xs)) as [|c cs] eqn:Hc;
    [intros [= <- <-]; split; [reflexivity | contradiction]|].
  unfold _build_retrievers.
  cbn [set_index documents vector_store exc_bind set_retrievers bm25 index_hash
       top_k bm25_weight vector_weight __init__ r].
  intros [= <- <-].
  cbn [set_index set_retrievers documents vector_store bm25 index_hash].
  split.
  - rewrite <- Hc. unfold _chunk_documents.
    rewrite length_imap. apply (chunk_ids_from 0).
  - intros _. eexists. split; [reflexivity|]. split; [reflexivity|].
    split; reflexivity.
Qed.

End FreshIndex.

Lemma forced_rebuild_saves_what_it_holds_witness :
  List.map meta_chunk_id (documents Sample.ready)
  = List.map (fun i => Some (Z.of_nat i)) (seq 0 (List.length (documents Sample.ready))) /\
  (documents Sample.ready <> [] ->
   exists index,
     bm25 Sample.ready = Some index /\
     index_hash Sample.ready
     = Some (_compute_version_hash Sample.cache_fs (__init__ (Some "/cache") None None)) /\
     bm25_path Sample.saved
     = Some {| st_mtime := 1000;
               st_content := Some {| pk_bm25 := index;
                                     pk_documents := documents Sample.ready;
                                     pk_index_hash := index_hash Sample.ready |} |} /\
     vector_path Sample.saved
     = Some {| st_mtime := 1000; st_content := vector_store Sample.ready |}).
Proof.
  apply (forced_rebuild_saves_what_it_holds Sample.docx_load Sample.split_documents
           Sample.project_root (Some "/cache") None None Sample.cache_fs Sample.no_disk
           Sample.saved 1000 Sample.ready).
  vm_compute. reflexivity.
Defined.
